(** * Tiny ERP MCP server: OAuth token lifecycle and request pipeline

    A shallow embedding of [src/services/oauth.ts] (token store, validity
    policy, refresh and authorization-code exchanges, callback listener) and
    of [src/services/api-client.ts] (request and response interceptors,
    [isAuthenticated], [handleApiError]).

    The TypeScript code is effectful: it reads the clock, reads and writes one
    file, posts to the token endpoint and sends API requests.  All of this is
    threaded through a [World]; what the outside answers (clock readings,
    token endpoint, API server) is an [Env] of oracles.  Exceptions do not
    roll the world back, so a computation is [World -> Result A * World].

    What is assumed of the runtime and of the libraries:
    - the file system is reliable: [existsSync], [mkdirSync], [readFileSync],
      [writeFileSync] and [unlinkSync] do what they say on the one directory
      and the one file, and do not throw;
    - [JSON.parse (JSON.stringify tokens)] gives [tokens] back, so the file is
      modelled by the value its text parses to;
    - the HTTP client runs the request interceptor, then the transport, then
      the response interceptor; it rejects a response outside 2xx; a rejected
      request interceptor skips the transport and reaches the rejection
      handler of the response interceptor; a property added to a request
      configuration ([_retry]) is still there when the request is re-issued.
    [apiClient.request] calls itself from its own response interceptor, so it
    is defined with fuel; the theorems give the result for every amount of
    fuel that allows one retry. *)

From Stdlib Require Import ZArith String List Bool Lia Ascii DecimalString.
Import ListNotations.
Local Open Scope string_scope.
Local Open Scope list_scope.
Local Open Scope Z_scope.

(** ** Data model *)

(** [interface OAuthTokens].  Numbers are epoch milliseconds and lifetimes in
    seconds; they are integers far below 2^53, where JS doubles are exact, so
    they are modelled in [Z].  The two computed fields are optional. *)
Record OAuthTokens := mkTokens {
  access_token : string;
  refresh_token : string;
  token_type : string;
  expires_in : Z;
  refresh_expires_in : Z;
  access_token_expires_at : option Z;
  refresh_token_expires_at : option Z
}.

(** [interface OAuthConfig]. *)
Record OAuthConfig := mkConfig {
  clientId : string;
  clientSecret : string;
  redirectUri : string
}.

(** Body of an HTTP response of the ERP API as [handleApiError] reads it:
    the optional fields [message], [error], [errors[].message], and the text
    [JSON.stringify(data)] gives for it.  The body has the shape the source
    declares for it: [errors], when present, is an array of objects with a
    [message].  On a body of another shape ([errors] a string, or an array
    holding [null]) [data.errors.map] throws; such bodies are not modelled. *)
Record ResponseData := mkData {
  data_message : option string;
  data_error : option string;
  data_errors : option (list string);
  data_json : string
}.

Record Response := mkResponse {
  status : Z;
  data : option ResponseData
}.

(** [AxiosRequestConfig & { _retry?: boolean }]: what the pipeline reads and
    writes of a request. *)
Record RequestConfig := mkRequest {
  method : string;
  url : string;
  payload : string;
  Authorization : option string;
  _retry : bool
}.

(** The error classes of the spec (section 7).  The code has no error
    classes: every failure is a plain [Error] with a message, or an error of
    the HTTP client.  Each [new Error(...)] of the source is tagged below with
    the class the spec gives that throw site; no function of the program reads
    the tag. *)
Inductive ErrorClass :=
| ConfigurationError
| NotAuthenticatedError
| SessionExpiredError
| AuthExchangeError
| TimeoutError
| RemoteApiError
| NetworkError.

Inductive JsError :=
| Error (cls : ErrorClass) (message : string)
| AxiosError (message : string) (code : option string)
             (config : RequestConfig) (response : option Response).

(** The class of an error that reaches a caller of the API client.  A plain
    [Error] has the class of its throw site.  An error of the HTTP client is
    classed along the branches [handleApiError] takes for it: a response is
    attached (whatever its status), the code is the timeout code, or the
    connection failed. *)
Definition classOf (e : JsError) : ErrorClass :=
  match e with
  | Error cls _ => cls
  | AxiosError _ code _ response =>
      match response with
      | Some r => RemoteApiError
      | None =>
          match code with
          | Some c =>
              if String.eqb c "ECONNABORTED" then TimeoutError
              else NetworkError
          | None => NetworkError
          end
      end
  end.

(** What [JSON.parse] makes of the text in [tokens.json]: an object, [null],
    or an exception.  These are the contents the program writes itself and
    a damaged file; a text that parses to another value ([0], [false], a
    string) is not modelled. *)
Inductive FileContent :=
| JsonTokens (t : OAuthTokens)
| JsonNull
| Corrupt.

(** The configuration directory [~/.tiny-mcp] and the one file in it. *)
Inductive FileSystem :=
| NoDir
| Dir (tokens_json : option FileContent).

(** A form-encoded body: [URLSearchParams] keeps the pairs in order. *)
Definition Form := list (string * string).

Record World := mkWorld {
  ticks : nat;                       (* clock readings taken so far *)
  fs : FileSystem;
  oauthConfig : option OAuthConfig;  (* module variable of api-client.ts *)
  tokenCalls : list Form;            (* POSTs made to the token endpoint *)
  apiCalls : list RequestConfig      (* requests sent to the ERP API *)
}.

(** What the transport gets back for one API request. *)
Inductive Outcome :=
| Http (r : Response)
| Failed (code : string) (message : string).

Record Env := mkEnv {
  clock : nat -> Z;                                (* k-th [Date.now()] *)
  tokenEndpoint : nat -> Form -> JsError + OAuthTokens;
  apiServer : nat -> RequestConfig -> Outcome
}.

Definition set_ticks (n : nat) (w : World) : World :=
  mkWorld n (fs w) (oauthConfig w) (tokenCalls w) (apiCalls w).
Definition set_fs (f : FileSystem) (w : World) : World :=
  mkWorld (ticks w) f (oauthConfig w) (tokenCalls w) (apiCalls w).
Definition set_tokenCalls (l : list Form) (w : World) : World :=
  mkWorld (ticks w) (fs w) (oauthConfig w) l (apiCalls w).
Definition set_apiCalls (l : list RequestConfig) (w : World) : World :=
  mkWorld (ticks w) (fs w) (oauthConfig w) (tokenCalls w) l.

(** ** The monad of the embedding *)

Inductive Result (A : Type) :=
| Ok (a : A)
| Throw (e : JsError).
Arguments Ok {A} a.
Arguments Throw {A} e.

Definition M (A : Type) := World -> Result A * World.

Definition ret {A} (a : A) : M A := fun w => (Ok a, w).
Definition throw {A} (e : JsError) : M A := fun w => (Throw e, w).
Definition bind {A B} (m : M A) (k : A -> M B) : M B :=
  fun w => match m w with
           | (Ok a, w') => k a w'
           | (Throw e, w') => (Throw e, w')
           end.
(** [try { body } catch (e) { handler e }] *)
Definition tryCatch {A} (body : M A) (handler : JsError -> M A) : M A :=
  fun w => match body w with
           | (Ok a, w') => (Ok a, w')
           | (Throw e, w') => handler e w'
           end.

Declare Scope js_scope.
Delimit Scope js_scope with js.
Notation "x <- m ;; k" := (bind m (fun x => k))
  (at level 100, m at next level, right associativity) : js_scope.
Notation "m ;;; k" := (bind m (fun _ => k))
  (at level 100, right associativity) : js_scope.
Local Open Scope js_scope.

(** ** Login attempt: requests, promise, replies *)

(** [new URL(req.url, ...)]: the path and the query pairs of a request. *)
Record CallbackUrl := mkUrl {
  pathname : string;
  searchParams : Form
}.

(** The request as the listener goes on with it once the target is parsed:
    [req_url] is the URL that [new URL(req.url, ...)] returned, [None] when
    [req.url] is missing or empty. *)
Record IncomingMessage := mkIncoming {
  req_url : option CallbackUrl
}.

(** [url.searchParams.get(name)]: the first value, or [null]. *)
Fixpoint searchParams_get (name : string) (params : Form) : option string :=
  match params with
  | [] => None
  | (k, v) :: rest =>
      if String.eqb k name then Some v else searchParams_get name rest
  end.

(** Truthiness of [string | null]: present and not empty. *)
Definition truthy (s : option string) : bool :=
  match s with
  | Some v => negb (String.eqb v "")
  | None => false
  end.

(** [a || b] on [string | null]. *)
Definition or_else (a b : option string) : option string :=
  if truthy a then a else b.

(** [returnedState !== state] *)
Definition state_differs (returnedState : option string) (state : string) : bool :=
  match returnedState with
  | Some s => negb (String.eqb s state)
  | None => true
  end.

Inductive Promise (A : Type) :=
| Pending
| Resolved (a : A)
| Rejected (e : JsError).
Arguments Pending {A}.
Arguments Resolved {A} a.
Arguments Rejected {A} e.

(** What [res.writeHead(status); res.end(body)] sends; of the HTML pages only
    the text that varies is kept. *)
Record Reply := mkReply {
  reply_status : Z;
  reply_text : string
}.

(** One login attempt of [startCallbackServer]: the state generated for it,
    whether the server still listens, the promise of the attempt and the
    replies sent so far. *)
Record Login := mkLogin {
  login_state : string;
  listening : bool;
  promise : Promise OAuthTokens;
  replies : list Reply
}.

Definition respond (st : Z) (text : string) (l : Login) : Login :=
  mkLogin (login_state l) (listening l) (promise l) (replies l ++ [mkReply st text]).
(** [server.close()] *)
Definition server_close (l : Login) : Login :=
  mkLogin (login_state l) false (promise l) (replies l).
(** [resolve] and [reject] settle a promise once; later calls are ignored. *)
Definition resolve (t : OAuthTokens) (l : Login) : Login :=
  match promise l with
  | Pending => mkLogin (login_state l) (listening l) (Resolved t) (replies l)
  | _ => l
  end.
Definition reject (e : JsError) (l : Login) : Login :=
  match promise l with
  | Pending => mkLogin (login_state l) (listening l) (Rejected e) (replies l)
  | _ => l
  end.

Section Program.

Variable env : Env.

(** [Date.now()] *)
Definition Date_now : M Z :=
  fun w => (Ok (clock env (ticks w)), set_ticks (S (ticks w)) w).

(** ** Token store (oauth.ts) *)

(** [getTokenFilePath]: creates the directory when it is missing.  The
    returned path is fixed, so only the effect is kept. *)
Definition getTokenFilePath : M unit :=
  fun w => match fs w with
           | NoDir => (Ok tt, set_fs (Dir None) w)
           | Dir _ => (Ok tt, w)
           end.

(** [fs.writeFileSync(filePath, JSON.stringify(tokens))] *)
Definition writeFileSync (t : OAuthTokens) : M unit :=
  fun w => (Ok tt, set_fs (Dir (Some (JsonTokens t))) w).

(** The two assignments of [saveTokens]:
    [tokens.access_token_expires_at = now + (tokens.expires_in * 1000)] and
    [tokens.refresh_token_expires_at = now + (tokens.refresh_expires_in * 1000)]. *)
Definition withExpiry (now : Z) (tokens : OAuthTokens) : OAuthTokens :=
  mkTokens (access_token tokens) (refresh_token tokens) (token_type tokens)
           (expires_in tokens) (refresh_expires_in tokens)
           (Some (now + expires_in tokens * 1000))
           (Some (now + refresh_expires_in tokens * 1000)).

(** [saveTokens].  The source mutates its argument; the mutated object is
    returned so that callers go on with it, as they do in the source. *)
Definition saveTokens (tokens : OAuthTokens) : M OAuthTokens :=
  getTokenFilePath ;;;
  now <- Date_now ;;
  let tokens' := withExpiry now tokens in
  writeFileSync tokens' ;;;
  ret tokens'.

(** [loadTokens] *)
Definition loadTokens : M (option OAuthTokens) :=
  getTokenFilePath ;;;
  fun w => match fs w with
           | NoDir | Dir None => (Ok None, w)            (* !existsSync *)
           | Dir (Some (JsonTokens t)) => (Ok (Some t), w)
           | Dir (Some JsonNull) => (Ok None, w)         (* parse gives null *)
           | Dir (Some Corrupt) => (Ok None, w)          (* catch *)
           end.

(** [clearTokens] *)
Definition clearTokens : M unit :=
  getTokenFilePath ;;;
  fun w => match fs w with
           | Dir (Some _) => (Ok tt, set_fs (Dir None) w)  (* unlinkSync *)
           | _ => (Ok tt, w)
           end.

(** ** Token validity policy (oauth.ts) *)

Definition bufferTime : Z := 5 * 60 * 1000.

(** [isAccessTokenExpired].  [!tokens.access_token_expires_at] holds when the
    field is absent and when it is zero; the clock is read only past it. *)
Definition isAccessTokenExpired (tokens : OAuthTokens) : M bool :=
  match access_token_expires_at tokens with
  | None => ret true
  | Some at_ =>
      if at_ =? 0 then ret true
      else now <- Date_now ;; ret (now >=? at_ - bufferTime)
  end.

(** [isRefreshTokenExpired], with the same test for a missing field. *)
Definition isRefreshTokenExpired (tokens : OAuthTokens) : M bool :=
  match refresh_token_expires_at tokens with
  | None => ret true
  | Some at_ =>
      if at_ =? 0 then ret true
      else now <- Date_now ;; ret (now >=? at_)
  end.

(** ** OAuth authenticator (oauth.ts) *)

Definition tokenUrl : string :=
  "https://accounts.tiny.com.br/realms/tiny/protocol/openid-connect/token".

(** [axios.post(OAUTH_CONFIG.tokenUrl, params.toString(), ...)]: one POST to
    the token endpoint, logged; the promise is rejected when the oracle
    answers with an error. *)
Definition axios_post_token (params : Form) : M OAuthTokens :=
  fun w =>
    let w' := set_tokenCalls (tokenCalls w ++ [params]) w in
    match tokenEndpoint env (length (tokenCalls w)) params with
    | inl e => (Throw e, w')
    | inr t => (Ok t, w')
    end.

(** [exchangeCodeForTokens] *)
Definition exchangeCodeForTokens (code : string) (config : OAuthConfig)
  : M OAuthTokens :=
  let params :=
    [ ("grant_type", "authorization_code");
      ("client_id", clientId config);
      ("client_secret", clientSecret config);
      ("redirect_uri", redirectUri config);
      ("code", code) ] in
  tokens <- axios_post_token params ;;
  saveTokens tokens.

(** The [URLSearchParams] of [refreshAccessToken]. *)
Definition refreshForm (refreshToken : string) (config : OAuthConfig) : Form :=
  [ ("grant_type", "refresh_token");
    ("client_id", clientId config);
    ("client_secret", clientSecret config);
    ("refresh_token", refreshToken) ].

(** [refreshAccessToken] *)
Definition refreshAccessToken (refreshToken : string) (config : OAuthConfig)
  : M OAuthTokens :=
  let params := refreshForm refreshToken config in
  tokens <- axios_post_token params ;;
  saveTokens tokens.

Definition msg_not_authenticated : string :=
  "Não autenticado. Execute 'tiny-mcp-auth' para fazer login OAuth.".
Definition msg_session_expired : string :=
  "Sessão expirada. Execute 'tiny-mcp-auth' para fazer login novamente.".
Definition msg_refresh_failed : string :=
  "Falha ao renovar token. Execute 'tiny-mcp-auth' para fazer login novamente.".

(** [getValidAccessToken] *)
Definition getValidAccessToken (config : OAuthConfig) : M string :=
  tokens <- loadTokens ;;
  match tokens with
  | None => throw (Error NotAuthenticatedError msg_not_authenticated)
  | Some tokens =>
      refreshExpired <- isRefreshTokenExpired tokens ;;
      if refreshExpired : bool then
        clearTokens ;;;
        throw (Error SessionExpiredError msg_session_expired)
      else
        accessExpired <- isAccessTokenExpired tokens ;;
        if accessExpired : bool then
          tryCatch
            (newTokens <- refreshAccessToken (refresh_token tokens) config ;;
             ret (access_token newTokens))
            (fun _ =>
               clearTokens ;;;
               throw (Error SessionExpiredError msg_refresh_failed))
        else ret (access_token tokens)
  end.

(** [isAuthenticated] (api-client.ts) *)
Definition isAuthenticated : M bool :=
  tokens <- loadTokens ;;
  ret (match tokens with Some _ => true | None => false end).

(** ** Callback listener of the interactive login (oauth.ts) *)

Definition msg_invalid_code_or_state : string :=
  "Invalid authorization code or state".
Definition msg_login_timeout : string :=
  "Timeout: autenticação não completada em 5 minutos".

Definition message_of (e : JsError) : string :=
  match e with
  | Error _ m => m
  | AxiosError m _ _ _ => m
  end.

(** The request listener [http.createServer(async (req, res) => ...)] of
    [startCallbackServer], from the parsed URL on.  The parse itself, which
    can throw, is in [onRequest] below. *)
Definition requestListener (config : OAuthConfig) (req : IncomingMessage)
    (l : Login) : M Login :=
  match req_url req with
  | None => ret (respond 400 "Bad Request" l)
  | Some url =>
      if String.eqb (pathname url) "/callback" then
        let code := searchParams_get "code" (searchParams url) in
        let returnedState := searchParams_get "state" (searchParams url) in
        let error := searchParams_get "error" (searchParams url) in
        let errorDescription :=
          searchParams_get "error_description" (searchParams url) in
        if truthy error then
          let text := match or_else errorDescription error with
                      | Some m => m
                      | None => ""
                      end in
          ret (reject (Error AuthExchangeError text)
                 (server_close (respond 400 text l)))
        else if negb (truthy code) || state_differs returnedState (login_state l)
        then
          ret (reject (Error AuthExchangeError msg_invalid_code_or_state)
                 (server_close
                    (respond 400
                       "Código de autorização inválido ou state incorreto." l)))
        else
          let codeValue := match code with Some v => v | None => "" end in
          tryCatch
            (tokens <- exchangeCodeForTokens codeValue config ;;
             ret (resolve tokens
                    (server_close (respond 200 "Autenticação Concluída!" l))))
            (fun err =>
               ret (reject err
                      (server_close (respond 500 (message_of err) l))))
      else ret (respond 404 "Not Found" l)
  end.

(** The listener from its first line.  [target] is [req.url]: missing, or
    the request target as it was sent.  [new URL(req.url, ...)] belongs to the
    URL library: [URL_new] gives, for a target, the URL it returns or the
    error it throws.  The call stands outside every [try] of the [async]
    listener, so that error rejects the listener's own promise before
    anything is written to [res]. *)
Definition onRequest (URL_new : string -> JsError + CallbackUrl)
    (config : OAuthConfig) (target : option string) (l : Login) : M Login :=
  if negb (truthy target) then requestListener config (mkIncoming None) l
  else
    match URL_new (match target with Some t => t | None => "" end) with
    | inr url => requestListener config (mkIncoming (Some url)) l
    | inl err => throw err
    end.

(** The events of one login attempt: an inbound request whose target has
    been parsed, the server's ["error"] event, and the five-minute timer. *)
Inductive LoginEvent :=
| Inbound (req : IncomingMessage)
| ServerError (err : JsError)
| TimerFired.

Definition loginStep (config : OAuthConfig) (ev : LoginEvent) (l : Login)
  : M Login :=
  match ev with
  | Inbound req => requestListener config req l
  | ServerError err => ret (reject err l)
  | TimerFired =>
      ret (reject (Error TimeoutError msg_login_timeout) (server_close l))
  end.

(** The events of a login attempt, handled one after the other. *)
Fixpoint loginRun (config : OAuthConfig) (events : list LoginEvent) (l : Login)
  : M Login :=
  match events with
  | [] => ret l
  | ev :: rest => l' <- loginStep config ev l ;; loginRun config rest l'
  end.

(** An inbound callback is a request to [/callback]; it mismatches when the
    [state] it returns is not the one generated for the attempt. *)
Definition mismatching (state : string) (ev : LoginEvent) : Prop :=
  match ev with
  | Inbound req =>
      match req_url req with
      | Some u =>
          pathname u = "/callback" ->
          searchParams_get "state" (searchParams u) <> Some state
      | None => True
      end
  | _ => True
  end.

(** ** Authenticated request pipeline (api-client.ts) *)

Definition msg_no_config : string :=
  "Configuração OAuth não encontrada. Defina TINY_CLIENT_ID e TINY_CLIENT_SECRET.".

Definition set_Authorization (h : string) (c : RequestConfig) : RequestConfig :=
  mkRequest (method c) (url c) (payload c) (Some h) (_retry c).
Definition set_retry (b : bool) (c : RequestConfig) : RequestConfig :=
  mkRequest (method c) (url c) (payload c) (Authorization c) b.

Definition Bearer (accessToken : string) : string :=
  ("Bearer " ++ accessToken)%string.

(** The request interceptor. *)
Definition requestInterceptor (config : RequestConfig) : M RequestConfig :=
  fun w =>
    match oauthConfig w with
    | None => throw (Error ConfigurationError msg_no_config) w
    | Some oc =>
        (accessToken <-
           tryCatch (getValidAccessToken oc) (fun error => throw error) ;;
         ret (set_Authorization (Bearer accessToken) config)) w
    end.

Definition string_of_Z (z : Z) : string := NilZero.string_of_int (Z.to_int z).

(** The error the HTTP client rejects with: for a response outside 2xx,
    "Request failed with status code N" with the response attached; for a
    failure without response, the failure's code and message. *)
Definition transportError (config : RequestConfig) (o : Outcome) : JsError :=
  match o with
  | Http r =>
      AxiosError
        ("Request failed with status code " ++ string_of_Z (status r))%string
        (if (400 <=? status r) && (status r <? 500) then Some "ERR_BAD_REQUEST"
         else if (500 <=? status r) && (status r <? 600) then Some "ERR_BAD_RESPONSE"
         else None)
        config (Some r)
  | Failed code message => AxiosError message (Some code) config None
  end.

(** [validateStatus]: 2xx resolves. *)
Definition is2xx (o : Outcome) : bool :=
  match o with
  | Http r => (200 <=? status r) && (status r <? 300)
  | Failed _ _ => false
  end.

(** [error.response?.status === 401] *)
Definition is401 (o : Outcome) : bool :=
  match o with
  | Http r => status r =? 401
  | Failed _ _ => false
  end.

(** [settle]: a 2xx response resolves the request, anything else rejects it
    with [transportError]. *)
Definition settle (config : RequestConfig) (o : Outcome) : Result Response :=
  match o with
  | Http r => if is2xx o then Ok r else Throw (transportError config o)
  | Failed _ _ => Throw (transportError config o)
  end.

(** The transport of the HTTP client: sends the request once, logs it, and
    settles with what came back. *)
Definition dispatchRequest (config : RequestConfig) : M Response :=
  fun w =>
    (settle config (apiServer env (length (apiCalls w)) config),
     set_apiCalls (apiCalls w ++ [config]) w).

(** A computation that may run out of fuel ([None]). *)
Definition Partial (A : Type) := World -> option (Result A * World).

Definition lift {A} (m : M A) : Partial A := fun w => Some (m w).

(** The promise an async function returned is awaited by its caller. *)
Definition await {A} (m : M (Partial A)) : Partial A :=
  fun w => match m w with
           | (Ok promise, w') => promise w'
           | (Throw e, w') => Some (Throw e, w')
           end.

(** The rejection handler of the response interceptor.  [request] is
    [apiClient.request].  The [try] block returns the promise of the retried
    request without awaiting it, so the [catch] sees only a failure of
    [getValidAccessToken].  A request that has been through the request
    interceptor has its headers, so the header is always set. *)
Definition responseRejected (request : RequestConfig -> Partial Response)
    (error : JsError) : Partial Response :=
  fun w =>
    match error with
    | AxiosError _ _ originalRequest (Some r) =>
        if status r =? 401 then
          match oauthConfig w with
          | Some oc =>
              if negb (_retry originalRequest) then
                let originalRequest := set_retry true originalRequest in
                await
                  (tryCatch
                     (accessToken <- getValidAccessToken oc ;;
                      ret (request
                             (set_Authorization (Bearer accessToken)
                                originalRequest)))
                     (fun _ =>
                        throw (Error SessionExpiredError msg_session_expired)))
                  w
              else lift (throw error) w
          | None => lift (throw error) w
          end
        else lift (throw error) w
    | _ => lift (throw error) w
    end.

(** [apiClient.request(config)]: request interceptor, transport, response
    interceptor.  A rejection of the request interceptor skips the transport
    and reaches the rejection handler of the response interceptor. *)
Fixpoint request (fuel : nat) (config : RequestConfig) : Partial Response :=
  match fuel with
  | O => fun _ => None
  | S fuel' =>
      fun w =>
        match requestInterceptor config w with
        | (Throw e, w1) => responseRejected (request fuel') e w1
        | (Ok config', w1) =>
            match dispatchRequest config' w1 with
            | (Ok response, w2) => Some (Ok response, w2)
            | (Throw e, w2) => responseRejected (request fuel') e w2
            end
        end
  end.

(** [apiGet], [apiPost], [apiPut], [apiDelete]: a new request, not yet
    retried; the caller gets [response.data]. *)
Definition apiCall (fuel : nat) (method endpoint payload : string)
  : Partial (option ResponseData) :=
  fun w =>
    match request fuel (mkRequest method endpoint payload None false) w with
    | Some (Ok response, w') => Some (Ok (data response), w')
    | Some (Throw e, w') => Some (Throw e, w')
    | None => None
    end.

Definition apiGet (fuel : nat) (endpoint params : string) :=
  apiCall fuel "get" endpoint params.
Definition apiPost (fuel : nat) (endpoint body : string) :=
  apiCall fuel "post" endpoint body.
Definition apiPut (fuel : nat) (endpoint body : string) :=
  apiCall fuel "put" endpoint body.
Definition apiDelete (fuel : nat) (endpoint : string) :=
  apiCall fuel "delete" endpoint "".

End Program.

(** ** handleApiError (api-client.ts) *)

(** [hay.includes(needle)] *)
Fixpoint includes (needle hay : string) : bool :=
  if String.prefix needle hay then true
  else match hay with
       | EmptyString => false
       | String _ rest => includes needle rest
       end.

Definition errorMsg_of (d : option ResponseData) : string :=
  match d with
  | None => "Erro desconhecido"
  | Some d =>
      if truthy (data_message d) then
        match data_message d with Some m => m | None => "" end
      else if truthy (data_error d) then
        match data_error d with Some m => m | None => "" end
      else
        match data_errors d with
        | Some (e :: es) => String.concat "; " (e :: es)
        | _ => data_json d
        end
  end.

Definition handleApiError (error : JsError) : string :=
  match error with
  | AxiosError message code _ response =>
      if includes "Sessão expirada" message || includes "Não autenticado" message
      then ("❌ " ++ message)%string
      else
        match response with
        | Some r =>
            let errorMsg := errorMsg_of (data r) in
            let st := status r in
            if st =? 400 then ("❌ Requisição inválida: " ++ errorMsg)%string
            else if st =? 401 then
              "❌ Não autorizado. Execute 'tiny-mcp-auth' para autenticar."
            else if st =? 403 then ("❌ Acesso negado: " ++ errorMsg)%string
            else if st =? 404 then "❌ Recurso não encontrado"
            else if st =? 429 then
              "❌ Limite de requisições excedido. Aguarde antes de tentar novamente."
            else if st =? 500 then "❌ Erro interno do servidor Tiny"
            else if st =? 503 then "❌ Serviço temporariamente indisponível"
            else ("❌ Erro " ++ string_of_Z st ++ ": " ++ errorMsg)%string
        | None =>
            match code with
            | Some c =>
                if String.eqb c "ECONNABORTED" then
                  "❌ Timeout: a requisição demorou muito para responder"
                else if String.eqb c "ENOTFOUND" || String.eqb c "ECONNREFUSED" then
                  "❌ Não foi possível conectar ao servidor Tiny"
                else ("❌ Erro de conexão: " ++ message)%string
            | None => ("❌ Erro de conexão: " ++ message)%string
            end
        end
  | Error _ message => ("❌ " ++ message)%string
  end.

(** ** Configuration from the environment (oauth.ts, api-client.ts) *)

(** The three variables of [process.env] the program reads. *)
Record ProcessEnv := mkProcessEnv {
  TINY_CLIENT_ID : option string;
  TINY_CLIENT_SECRET : option string;
  TINY_REDIRECT_URI : option string
}.

(** A line feed and a double quote, for the texts that contain them. *)
Definition nl : string := String "010"%char EmptyString.
Definition dquote : string := String "034"%char EmptyString.

Definition msg_missing_credentials : string :=
  ("Variáveis de ambiente TINY_CLIENT_ID e TINY_CLIENT_SECRET são obrigatórias."
   ++ nl ++
   "Configure-as com as credenciais do seu aplicativo no Tiny ERP.")%string.

Definition default_redirectUri : string := "http://localhost:8080/callback".

(** The value of a [string | undefined] that is known to be there. *)
Definition string_value (s : option string) : string :=
  match s with
  | Some v => v
  | None => ""
  end.

(** [getOAuthConfigFromEnv] *)
Definition getOAuthConfigFromEnv (penv : ProcessEnv) : Result OAuthConfig :=
  let clientId := TINY_CLIENT_ID penv in
  let clientSecret := TINY_CLIENT_SECRET penv in
  let redirectUri :=
    or_else (TINY_REDIRECT_URI penv) (Some default_redirectUri) in
  if negb (truthy clientId) || negb (truthy clientSecret) then
    Throw (Error ConfigurationError msg_missing_credentials)
  else
    Ok (mkConfig (string_value clientId) (string_value clientSecret)
                 (string_value redirectUri)).

Definition set_oauthConfig (c : option OAuthConfig) (w : World) : World :=
  mkWorld (ticks w) (fs w) c (tokenCalls w) (apiCalls w).

(** [initializeApiClient]: the module variable [oauthConfig] is set from the
    environment, or to [null] when the credentials are missing; the client
    and its two interceptors are the [request] above. *)
Definition initializeApiClient (penv : ProcessEnv) : M unit :=
  fun w =>
    (Ok tt,
     set_oauthConfig
       (match getOAuthConfigFromEnv penv with
        | Ok c => Some c
        | Throw _ => None
        end) w).

(** The [URLSearchParams] of [exchangeCodeForTokens]. *)
Definition exchangeForm (code : string) (config : OAuthConfig) : Form :=
  [ ("grant_type", "authorization_code");
    ("client_id", clientId config);
    ("client_secret", clientSecret config);
    ("redirect_uri", redirectUri config);
    ("code", code) ].

(** ** Command line (auth-cli.ts) and startup check (index.ts) *)

(** [Math.round(n / d)] for integers [n] and [d > 0]: the nearest integer,
    a half rounding up. *)
Definition Math_round_div (n d : Z) : Z := (2 * n + d) / (2 * d).

(** [checkStatus]; the result is what [console.log] printed, line by line. *)
Definition checkStatus (env : Env) : M (list string) :=
  let header :=
    [ (nl ++ "🔍 Status da Autenticação Tiny ERP")%string;
      ("===================================" ++ nl)%string ] in
  tokens <- loadTokens ;;
  match tokens with
  | None =>
      ret (header ++
           [ "❌ Não autenticado";
             (nl ++ "Execute 'npx tiny-mcp-auth' para fazer login.")%string ])
  | Some tokens =>
      now <- Date_now env ;;
      accessExpired <- isAccessTokenExpired env tokens ;;
      let accessLines :=
        if accessExpired : bool then
          [ "⚠️  Access token expirado (será renovado automaticamente)" ]
        else
          let accessExpiresIn :=
            match access_token_expires_at tokens with
            | Some e => e
            | None => 0
            end - now in
          [ ("✅ Access token válido por: "
             ++ string_of_Z (Math_round_div accessExpiresIn 60000)
             ++ " minutos")%string ] in
      refreshExpired <- isRefreshTokenExpired env tokens ;;
      let refreshLines :=
        if refreshExpired : bool then
          [ "❌ Refresh token expirado";
            (nl ++ "Execute 'npx tiny-mcp-auth' para fazer login novamente.")%string ]
        else
          let refreshExpiresIn :=
            match refresh_token_expires_at tokens with
            | Some e => e
            | None => 0
            end - now in
          [ ("✅ Refresh token válido por: "
             ++ string_of_Z (Math_round_div refreshExpiresIn 3600000)
             ++ " horas")%string ] in
      ret (header ++ accessLines ++ refreshLines ++
           [ (nl ++ "📁 Tokens armazenados em: ~/.tiny-mcp/tokens.json")%string ])
  end.

(** [logout] *)
Definition logout : M (list string) :=
  let header :=
    [ (nl ++ "🚪 Logout Tiny ERP")%string;
      ("==================" ++ nl)%string ] in
  tokens <- loadTokens ;;
  match tokens with
  | None => ret (header ++ [ "Você já está deslogado." ])
  | Some _ =>
      clearTokens ;;;
      ret (header ++
           [ "✅ Tokens removidos com sucesso.";
             "Você foi desconectado do Tiny ERP." ])
  end.

(** [checkAuthStatus] of the server's entry point; the result is what
    [console.error] printed. *)
Definition checkAuthStatus (env : Env) (penv : ProcessEnv) : M (list string) :=
  let credentialLines :=
    if negb (truthy (TINY_CLIENT_ID penv)) || negb (truthy (TINY_CLIENT_SECRET penv))
    then
      [ "⚠️  TINY_CLIENT_ID e TINY_CLIENT_SECRET não configurados.";
        "Configure as variáveis de ambiente com as credenciais OAuth do Tiny ERP.";
        "";
        "Exemplo:";
        ("  export TINY_CLIENT_ID=" ++ dquote ++ "seu-client-id" ++ dquote)%string;
        ("  export TINY_CLIENT_SECRET=" ++ dquote ++ "seu-client-secret" ++ dquote)%string;
        "" ]
    else [] in
  tokens <- loadTokens ;;
  match tokens with
  | None =>
      ret (credentialLines ++
           [ "⚠️  Não autenticado no Tiny ERP.";
             "Execute 'npx tiny-mcp-auth' para fazer login OAuth.";
             "" ])
  | Some tokens =>
      refreshExpired <- isRefreshTokenExpired env tokens ;;
      if refreshExpired : bool then
        ret (credentialLines ++
             [ "⚠️  Sessão expirada.";
               "Execute 'npx tiny-mcp-auth' para fazer login novamente.";
               "" ])
      else ret credentialLines
  end.

(** ** Formatters (formatters.ts) *)

Definition CHARACTER_LIMIT : Z := 25000.

(** [s.length] of JavaScript counts UTF-16 code units; the strings here are
    UTF-8 bytes.  A byte that starts a character of up to three bytes counts
    one unit, a byte that starts a four-byte character counts two, and a
    continuation byte counts none. *)
Definition units_of_byte (c : ascii) : Z :=
  let n := Z.of_nat (nat_of_ascii c) in
  if n <? 128 then 1
  else if n <? 192 then 0
  else if n <? 240 then 1
  else 2.

Fixpoint js_length (s : string) : Z :=
  match s with
  | EmptyString => 0
  | String c rest => units_of_byte c + js_length rest
  end.

(** [formatSuccess] *)
Definition formatSuccess (message : string) : string :=
  ("✓ " ++ message)%string.

(** [interface ApiListResponse<T>] *)
Record ApiListResponse (T : Type) := mkList {
  list_total : Z;
  list_count : Z;
  list_offset : Z;
  list_items : list T;
  has_more : bool;
  next_offset : option Z
}.
Arguments mkList {T}.
Arguments list_total {T}.
Arguments list_count {T}.
Arguments list_offset {T}.
Arguments list_items {T}.
Arguments has_more {T}.
Arguments next_offset {T}.

(** [buildListResponse] *)
Definition buildListResponse {T} (items : list T) (total offset : Z)
  : ApiListResponse T :=
  let count := Z.of_nat (length items) in
  mkList total count offset items
         (total >? offset + count)
         (if total >? offset + count then Some (offset + count) else None).

(** [formatPaginationMd] *)
Definition formatPaginationMd (total count offset : Z) : string :=
  let hasMore := total >? offset + count in
  let lines :=
    [ ("**Total:** " ++ string_of_Z total ++ " registros")%string;
      ("**Exibindo:** " ++ string_of_Z count ++ " (offset: "
       ++ string_of_Z offset ++ ")")%string ] in
  let lines :=
    if hasMore then
      lines ++ [ ("**Próxima página:** offset=" ++ string_of_Z (offset + count))%string ]
    else lines in
  String.concat nl lines.

(** The notice [truncateResponse] appends. *)
Definition truncation_notice (included returned : nat) : string :=
  (nl ++ nl ++ "---" ++ nl ++ "**Resposta truncada.** Exibindo "
   ++ string_of_Z (Z.of_nat included) ++ " de " ++ string_of_Z (Z.of_nat returned)
   ++ " itens retornados. Use o parâmetro 'offset' para ver mais resultados.")%string.

(** The [for] loop of [truncateResponse]: [text] and [includedItems] are the
    two accumulators; the loop ends at the first item that does not fit. *)
Fixpoint truncateLoop {T} (formatFn : T -> string) (items : list T)
    (text : string) (includedItems : list T) : string * bool * list T :=
  match items with
  | [] => (text, false, includedItems)
  | item :: rest =>
      let itemText := formatFn item in
      if js_length text + js_length itemText >? CHARACTER_LIMIT
      then (text, true, includedItems)
      else truncateLoop formatFn rest (text ++ itemText)%string
                        (includedItems ++ [item])
  end.

Record Truncated (T : Type) := mkTruncated {
  trunc_text : string;
  truncated : bool;
  trunc_items : list T
}.
Arguments mkTruncated {T}.
Arguments trunc_text {T}.
Arguments truncated {T}.
Arguments trunc_items {T}.

(** [truncateResponse]; [total] and [offset] are not used by the source. *)
Definition truncateResponse {T} (items : list T) (total offset : Z)
    (formatFn : T -> string) : Truncated T :=
  match truncateLoop formatFn items "" [] with
  | (text, isTruncated, includedItems) =>
      mkTruncated
        (if isTruncated
         then (text ++ truncation_notice (length includedItems) (length items))%string
         else text)
        isTruncated includedItems
  end.

(** [enum ResponseFormat] *)
Inductive ResponseFormat :=
| MARKDOWN
| JSON.

Record Formatted (T : Type) := mkFormatted {
  formatted_text : string;
  structured : ApiListResponse T
}.
Arguments mkFormatted {T}.
Arguments formatted_text {T}.
Arguments structured {T}.

(** [formatListResponse].  [stringify] stands for
    [JSON.stringify(response, null, 2)]; the structured content is the
    response itself, as [JSON.parse (JSON.stringify response)] gives it. *)
Definition formatListResponse {T} (stringify : ApiListResponse T -> string)
    (title : string) (items : list T) (total offset : Z)
    (format : ResponseFormat) (itemToMarkdown : T -> string) : Formatted T :=
  let response := buildListResponse items total offset in
  match format with
  | JSON => mkFormatted (stringify response) response
  | MARKDOWN =>
      let t := truncateResponse items total offset itemToMarkdown in
      let includedItems := trunc_items t in
      let lines :=
        [ ("# " ++ title)%string;
          "";
          formatPaginationMd total (Z.of_nat (length includedItems)) offset;
          "";
          "---";
          "";
          trunc_text t ] in
      mkFormatted (String.concat nl lines)
                  (buildListResponse includedItems total offset)
  end.

(** ** A tool (tools/contacts.ts) *)

(** What a tool handler returns: the text of its one content block and, when
    the call went through, the structured content [{ id, success: true }]. *)
Record ToolResult := mkToolResult {
  content_text : string;
  structuredContent : option Z
}.

(** The handler of [tiny_update_contact]: [data] is the request body, the
    parameters without [idContato]. *)
Definition tiny_update_contact (env : Env) (fuel : nat) (idContato : Z)
    (data : string) : Partial ToolResult :=
  fun w =>
    match apiPut env fuel ("/contatos/" ++ string_of_Z idContato)%string data w with
    | Some (Ok _, w') =>
        Some (Ok (mkToolResult
                    (formatSuccess
                       ("Contato " ++ string_of_Z idContato ++ " atualizado")%string)
                    (Some idContato)), w')
    | Some (Throw error, w') =>
        Some (Ok (mkToolResult (handleApiError error) None), w')
    | None => None
    end.

(** A request that went out for the caller's request [cfg]: the same method,
    URL and body, and a bearer header. *)
Definition sent_for (cfg c : RequestConfig) : Prop :=
  method c = method cfg /\ url c = url cfg /\ payload c = payload cfg /\
  exists accessToken,
    Authorization c = Some ("Bearer " ++ accessToken)%string.

(** [lacks c s]: the byte [c] does not occur in [s]. *)
Fixpoint lacks (c : ascii) (s : string) : bool :=
  match s with
  | EmptyString => true
  | String h rest => negb (Ascii.eqb c h) && lacks c rest
  end.

(** The file system after a read: [getTokenFilePath] has created the
    directory when it was missing, and nothing else has changed. *)
Definition after_read (f : FileSystem) : FileSystem :=
  match f with
  | NoDir => Dir None
  | Dir c => Dir c
  end.

(** ** Frame conditions *)

(** Two properties of computations, proved by composition: [keeps m] says
    that [m] sends nothing to the API and leaves the OAuth configuration
    alone; [plain m] says that whatever [m] throws is a plain [Error]. *)
Definition keeps {A} (m : M A) : Prop :=
  forall w, apiCalls (snd (m w)) = apiCalls w /\
            oauthConfig (snd (m w)) = oauthConfig w.

Definition plain {A} (m : M A) : Prop :=
  forall w e, fst (m w) = Throw e -> exists cls msg, e = Error cls msg.

(** ** A concrete installation, used by the examples *)

Module Scenario.

Definition config : OAuthConfig :=
  mkConfig "client-id" "client-secret" "http://localhost:8080/callback".

(** The pair A1/R1 was saved at [t0]: four hours for the access token, one
    day for the refresh token. *)
Definition t0 : Z := 1700000000000.
Definition A1R1 : OAuthTokens :=
  mkTokens "A1" "R1" "Bearer" 14400 86400
           (Some (t0 + 14400 * 1000)) (Some (t0 + 86400 * 1000)).
(** What the token endpoint issues on refresh. *)
Definition A2R2 : OAuthTokens :=
  mkTokens "A2" "R2" "Bearer" 14400 86400 None None.

Definition fresh : Z := t0 + 1000.                    (* both tokens valid *)
Definition inBuffer : Z := t0 + 14400 * 1000 - 1000.  (* one second before expiry *)
Definition late : Z := t0 + 86400 * 1000.             (* refresh token expired *)

Definition unauthorized : Outcome := Http (mkResponse 401 None).
Definition serverError : Outcome := Http (mkResponse 500 None).

(** The clock stands at [now], the token endpoint issues A2/R2, and the API
    answers every request with [answer]. *)
Definition env (now : Z) (answer : Outcome) : Env :=
  mkEnv (fun _ => now) (fun _ _ => inr A2R2) (fun _ _ => answer).

Definition world : World :=
  mkWorld 0 (Dir (Some (JsonTokens A1R1))) (Some config) [] [].

Definition getProducts : RequestConfig :=
  mkRequest "get" "/produtos" "" None false.

(** A callback that returns a state other than the generated ["k3x9q"]. *)
Definition forged : CallbackUrl :=
  mkUrl "/callback" [("code", "c0de"); ("state", "other")].
Definition attempt : Login := mkLogin "k3x9q" true Pending [].

End Scenario.

(** For the examples: the clock advances by 10000 seconds at every
    reading, starting one second before A1 expires. *)
Definition moving_clock : Env :=
  mkEnv (fun k => Scenario.inBuffer + Z.of_nat k * 10000000)
        (fun _ _ => inr Scenario.A2R2)
        (fun _ _ => Scenario.serverError).

(** For the examples: the API rejects the first request with a 401 and
    accepts the second. *)
Definition rejects_once : Env :=
  mkEnv (fun _ => Scenario.fresh) (fun _ _ => inr Scenario.A2R2)
        (fun n _ => match n with
                    | O => Scenario.unauthorized
                    | _ => Http (mkResponse 200
                                   (Some (mkData None None None "{}")))
                    end).

(** * Properties *)

(** ** Running the primitives *)

Ltac run := cbv [bind ret throw tryCatch]; cbn.

Lemma loadTokens_stored w t :
  fs w = Dir (Some (JsonTokens t)) -> loadTokens w = (Ok (Some t), w).
Proof.
  intros H. unfold loadTokens, getTokenFilePath. run. now rewrite !H.
Qed.

Lemma clearTokens_stored w c :
  fs w = Dir (Some c) -> clearTokens w = (Ok tt, set_fs (Dir None) w).
Proof.
  intros H. unfold clearTokens, getTokenFilePath. run. now rewrite !H.
Qed.

Lemma loadTokens_empty w :
  fs w = Dir None -> loadTokens w = (Ok None, w).
Proof.
  intros H. unfold loadTokens, getTokenFilePath. run. now rewrite !H.
Qed.

Lemma saveTokens_run env t w :
  saveTokens env t w =
  (Ok (withExpiry (clock env (ticks w)) t),
   set_fs (Dir (Some (JsonTokens (withExpiry (clock env (ticks w)) t))))
          (set_ticks (S (ticks w)) w)).
Proof.
  unfold saveTokens, getTokenFilePath, Date_now, writeFileSync. run.
  destruct (fs w); reflexivity.
Qed.

(** The refresh-token check never throws; it reads the clock only when the
    expiry instant is there and not zero. *)
Lemma isRefreshTokenExpired_run env t w :
  isRefreshTokenExpired env t w =
  match refresh_token_expires_at t with
  | None => (Ok true, w)
  | Some e => if e =? 0 then (Ok true, w)
              else (Ok (clock env (ticks w) >=? e), set_ticks (S (ticks w)) w)
  end.
Proof.
  unfold isRefreshTokenExpired, Date_now. run.
  destruct (refresh_token_expires_at t) as [e|]; [|reflexivity].
  destruct (e =? 0); reflexivity.
Qed.

Lemma isAccessTokenExpired_run env t w :
  isAccessTokenExpired env t w =
  match access_token_expires_at t with
  | None => (Ok true, w)
  | Some e => if e =? 0 then (Ok true, w)
              else (Ok (clock env (ticks w) >=? e - bufferTime),
                    set_ticks (S (ticks w)) w)
  end.
Proof.
  unfold isAccessTokenExpired, Date_now. run.
  destruct (access_token_expires_at t) as [e|]; [|reflexivity].
  destruct (e =? 0); reflexivity.
Qed.

Lemma set_ticks_id w : set_ticks (ticks w) w = w.
Proof. destruct w; reflexivity. Qed.

(** The checks touch nothing but the clock counter. *)
Lemma isRefreshTokenExpired_frame env t w :
  exists b n, isRefreshTokenExpired env t w = (Ok b, set_ticks n w).
Proof.
  rewrite isRefreshTokenExpired_run.
  destruct (refresh_token_expires_at t) as [e|]; [destruct (e =? 0)|];
    try (exists true, (ticks w); now rewrite set_ticks_id).
  eexists; eexists; reflexivity.
Qed.

Lemma isAccessTokenExpired_frame env t w :
  exists b n, isAccessTokenExpired env t w = (Ok b, set_ticks n w).
Proof.
  rewrite isAccessTokenExpired_run.
  destruct (access_token_expires_at t) as [e|]; [destruct (e =? 0)|];
    try (exists true, (ticks w); now rewrite set_ticks_id).
  eexists; eexists; reflexivity.
Qed.

(** ** Token store *)

(** C4. For every token pair and every prior content of the store, [saveTokens]
    followed by [loadTokens] returns the pair with both expiry instants
    recomputed from the clock reading taken by the save:
    now + lifetime in seconds * 1000; the expiry fields the pair came with
    are not kept, and the prior record is gone. *)
Theorem saveTokens_loadTokens env (t : OAuthTokens) (w : World) :
  let now := clock env (ticks w) in
  let w1 := snd (saveTokens env t w) in
  exists t',
    fst (saveTokens env t w) = Ok t' /\
    fs w1 = Dir (Some (JsonTokens t')) /\
    loadTokens w1 = (Ok (Some t'), w1) /\
    access_token_expires_at t' = Some (now + expires_in t * 1000) /\
    refresh_token_expires_at t' = Some (now + refresh_expires_in t * 1000) /\
    access_token t' = access_token t /\
    refresh_token t' = refresh_token t /\
    token_type t' = token_type t /\
    expires_in t' = expires_in t /\
    refresh_expires_in t' = refresh_expires_in t.
Proof.
  cbv zeta. rewrite saveTokens_run. cbn [fst snd].
  eexists. split; [reflexivity|]. split; [reflexivity|].
  split; [apply loadTokens_stored; reflexivity|].
  repeat split.
Qed.

(** ** Validity policy *)

(** C5. With [now] the clock reading of the call (epoch milliseconds, so not
    negative), [isAccessTokenExpired] answers true exactly when the pair has
    no access-token expiry instant or now >= expiry - 5 minutes; it is true
    4 minutes before the expiry and false 6 minutes before it. *)
Theorem isAccessTokenExpired_iff env (t : OAuthTokens) (w : World) :
  let now := clock env (ticks w) in
  0 <= now ->
  (exists b, fst (isAccessTokenExpired env t w) = Ok b) /\
  (fst (isAccessTokenExpired env t w) = Ok true <->
     access_token_expires_at t = None \/
     exists e, access_token_expires_at t = Some e /\ now >= e - 5 * 60 * 1000) /\
  (forall e, access_token_expires_at t = Some e ->
     now = e - 4 * 60 * 1000 -> fst (isAccessTokenExpired env t w) = Ok true) /\
  (forall e, access_token_expires_at t = Some e ->
     now = e - 6 * 60 * 1000 -> fst (isAccessTokenExpired env t w) = Ok false).
Proof.
  cbv zeta. intros Hnow. rewrite isAccessTokenExpired_run. unfold bufferTime.
  destruct (access_token_expires_at t) as [e|].
  - destruct (Z.eqb_spec e 0) as [->|He]; cbn [fst].
    + repeat split; eauto.
      * intros _. right. exists 0. split; [reflexivity|lia].
      * intros e [= <-] H. lia.
    + repeat split; eauto.
      * intros [= H]. right. exists e. split; [reflexivity|]. lia.
      * intros [[=]|[e' [[= <-] H]]]. f_equal. lia.
      * intros e' [= <-] H. f_equal. lia.
      * intros e' [= <-] H. f_equal. lia.
  - cbn [fst]. repeat split; eauto; intros; discriminate.
Qed.

(** C6. With [now] the clock reading of the call (epoch milliseconds, so not
    negative), [isRefreshTokenExpired] answers true exactly when the pair has
    no refresh-token expiry instant or now >= expiry, with no buffer: true at
    the expiry instant itself, false one millisecond before; a pair without
    the expiry field is always expired. *)
Theorem isRefreshTokenExpired_iff env (t : OAuthTokens) (w : World) :
  let now := clock env (ticks w) in
  0 <= now ->
  (exists b, fst (isRefreshTokenExpired env t w) = Ok b) /\
  (fst (isRefreshTokenExpired env t w) = Ok true <->
     refresh_token_expires_at t = None \/
     exists e, refresh_token_expires_at t = Some e /\ now >= e) /\
  (forall e, refresh_token_expires_at t = Some e ->
     now = e -> fst (isRefreshTokenExpired env t w) = Ok true) /\
  (forall e, refresh_token_expires_at t = Some e ->
     now = e - 1 -> fst (isRefreshTokenExpired env t w) = Ok false) /\
  (refresh_token_expires_at t = None ->
     fst (isRefreshTokenExpired env t w) = Ok true).
Proof.
  cbv zeta. intros Hnow. rewrite isRefreshTokenExpired_run.
  destruct (refresh_token_expires_at t) as [e|].
  - destruct (Z.eqb_spec e 0) as [->|He]; cbn [fst].
    + repeat split; eauto.
      * intros _. right. exists 0. split; [reflexivity|lia].
      * intros e [= <-] H. lia.
    + repeat split; eauto.
      * intros [= H]. right. exists e. split; [reflexivity|]. lia.
      * intros [[=]|[e' [[= <-] H]]]. f_equal. lia.
      * intros e' [= <-] H. f_equal. lia.
      * intros e' [= <-] H. f_equal. lia.
      * intros [=].
  - cbn [fst]. repeat split; eauto; intros; discriminate.
Qed.

(** ** getValidAccessToken *)

Lemma refreshAccessToken_run env rt c w :
  refreshAccessToken env rt c w =
  let w1 := set_tokenCalls (tokenCalls w ++ [refreshForm rt c]) w in
  match tokenEndpoint env (length (tokenCalls w)) (refreshForm rt c) with
  | inl e => (Throw e, w1)
  | inr nt => saveTokens env nt w1
  end.
Proof.
  unfold refreshAccessToken, axios_post_token, refreshForm. run.
  destruct (tokenEndpoint env _ _); reflexivity.
Qed.

Lemma getValidAccessToken_absent env c w :
  fst (loadTokens w) = Ok None ->
  getValidAccessToken env c w =
  (Throw (Error NotAuthenticatedError msg_not_authenticated), snd (loadTokens w)).
Proof.
  intros H. unfold getValidAccessToken. run.
  destruct (loadTokens w) as [[[t|]|e] w']; cbn in *; congruence.
Qed.

(** The run of [getValidAccessToken] on the refresh path, in closed form. *)
Lemma getValidAccessToken_refresh_run env c t w w1 w2 :
  fs w = Dir (Some (JsonTokens t)) ->
  isRefreshTokenExpired env t w = (Ok false, w1) ->
  isAccessTokenExpired env t w1 = (Ok true, w2) ->
  let form := refreshForm (refresh_token t) c in
  let w3 := set_tokenCalls (tokenCalls w ++ [form]) w2 in
  getValidAccessToken env c w =
  match tokenEndpoint env (length (tokenCalls w)) form with
  | inl _ =>
      (Throw (Error SessionExpiredError msg_refresh_failed),
       set_fs (Dir None) w3)
  | inr nt =>
      (Ok (access_token nt),
       set_fs (Dir (Some (JsonTokens (withExpiry (clock env (ticks w2)) nt))))
              (set_ticks (S (ticks w2)) w3))
  end.
Proof.
  intros Hfs Hr Ha form w3.
  destruct (isRefreshTokenExpired_frame env t w) as (b1 & n1 & E1).
  destruct (isAccessTokenExpired_frame env t w1) as (b2 & n2 & E2).
  rewrite Hr in E1. rewrite Ha in E2.
  injection E1 as _ ->. injection E2 as _ ->.
  unfold getValidAccessToken. unfold bind at 1.
  rewrite (loadTokens_stored w t Hfs). unfold bind at 1. rewrite Hr.
  unfold bind at 1. rewrite Ha.
  unfold tryCatch, bind at 1. rewrite refreshAccessToken_run.
  cbv zeta. cbn [tokenCalls set_ticks]. fold form. subst w3.
  destruct (tokenEndpoint env _ form) as [e0|nt0].
  - unfold bind at 1.
    erewrite clearTokens_stored; [|cbn; exact Hfs]. reflexivity.
  - rewrite saveTokens_run. reflexivity.
Qed.

(** C1. With a stored pair whose refresh token is still valid and whose
    access token is expired (inside the buffer), [getValidAccessToken] posts
    the refresh grant to the token endpoint exactly once.  When the endpoint
    issues a pair, that pair (expiries recomputed) replaces the stored one and
    its access token is returned; when the exchange fails, the store is
    cleared and the call fails with the SessionExpiredError of the refresh
    failure, with no second post. *)
Theorem getValidAccessToken_refreshes env (c : OAuthConfig) (t : OAuthTokens)
    (w w1 w2 : World) :
  fs w = Dir (Some (JsonTokens t)) ->
  isRefreshTokenExpired env t w = (Ok false, w1) ->
  isAccessTokenExpired env t w1 = (Ok true, w2) ->
  let form := refreshForm (refresh_token t) c in
  (forall nt, tokenEndpoint env (length (tokenCalls w)) form = inr nt ->
     exists w',
       getValidAccessToken env c w = (Ok (access_token nt), w') /\
       tokenCalls w' = tokenCalls w ++ [form] /\
       fs w' = Dir (Some (JsonTokens (withExpiry (clock env (ticks w2)) nt))) /\
       fst (loadTokens w') = Ok (Some (withExpiry (clock env (ticks w2)) nt))) /\
  (forall e, tokenEndpoint env (length (tokenCalls w)) form = inl e ->
     exists w',
       getValidAccessToken env c w =
         (Throw (Error SessionExpiredError msg_refresh_failed), w') /\
       tokenCalls w' = tokenCalls w ++ [form] /\
       fs w' = Dir None /\
       fst (loadTokens w') = Ok None).
Proof.
  intros Hfs Hr Ha form.
  pose proof (getValidAccessToken_refresh_run env c t w w1 w2 Hfs Hr Ha) as Hrun.
  cbv zeta in Hrun. fold form in Hrun.
  split; intros x Hx; rewrite Hx in Hrun; rewrite Hrun;
    eexists; (split; [reflexivity|]); repeat split.
Qed.

(** The run of [getValidAccessToken] when the refresh token is expired. *)
Lemma session_expired_run env c t w :
  fs w = Dir (Some (JsonTokens t)) ->
  fst (isRefreshTokenExpired env t w) = Ok true ->
  exists w',
    getValidAccessToken env c w =
      (Throw (Error SessionExpiredError msg_session_expired), w') /\
    fs w' = Dir None.
Proof.
  intros Hfs Hr.
  destruct (isRefreshTokenExpired_frame env t w) as (b1 & n1 & E1).
  rewrite E1 in Hr. cbn in Hr. injection Hr as ->.
  unfold getValidAccessToken. unfold bind at 1.
  rewrite (loadTokens_stored w t Hfs). unfold bind at 1. rewrite E1.
  unfold bind at 1.
  erewrite clearTokens_stored; [|cbn; exact Hfs]. cbn.
  eexists. split; reflexivity.
Qed.

(** C3. With a stored pair whose refresh token is expired,
    [getValidAccessToken] removes the stored record and fails with the
    SessionExpiredError of the expired session, without any call to the token
    endpoint; [loadTokens] then returns absent. *)
Theorem getValidAccessToken_session_expired env (c : OAuthConfig)
    (t : OAuthTokens) (w : World) :
  fs w = Dir (Some (JsonTokens t)) ->
  fst (isRefreshTokenExpired env t w) = Ok true ->
  exists w',
    getValidAccessToken env c w =
      (Throw (Error SessionExpiredError msg_session_expired), w') /\
    fs w' = Dir None /\
    loadTokens w' = (Ok None, w') /\
    tokenCalls w' = tokenCalls w.
Proof.
  intros Hfs Hr.
  destruct (isRefreshTokenExpired_frame env t w) as (b1 & n1 & E1).
  rewrite E1 in Hr. cbn in Hr. injection Hr as ->.
  unfold getValidAccessToken. unfold bind at 1.
  rewrite (loadTokens_stored w t Hfs). unfold bind at 1. rewrite E1.
  unfold bind at 1.
  erewrite clearTokens_stored; [|cbn; exact Hfs]. cbn.
  eexists. split; [reflexivity|]. repeat split.
Qed.

(** C9. With a stored pair whose refresh token and access token are both
    still valid (the access token outside the 5-minute buffer),
    [getValidAccessToken] returns the stored access token; the file system is
    the same before and after, nothing is posted to the token endpoint, and
    only clock readings were taken. *)
Theorem getValidAccessToken_unchanged env (c : OAuthConfig) (t : OAuthTokens)
    (w w1 w2 : World) :
  fs w = Dir (Some (JsonTokens t)) ->
  isRefreshTokenExpired env t w = (Ok false, w1) ->
  isAccessTokenExpired env t w1 = (Ok false, w2) ->
  getValidAccessToken env c w = (Ok (access_token t), w2) /\
  fs w2 = fs w /\
  tokenCalls w2 = tokenCalls w /\
  apiCalls w2 = apiCalls w /\
  w2 = set_ticks (ticks w2) w.
Proof.
  intros Hfs Hr Ha.
  destruct (isRefreshTokenExpired_frame env t w) as (b1 & n1 & E1).
  destruct (isAccessTokenExpired_frame env t w1) as (b2 & n2 & E2).
  rewrite Hr in E1. rewrite Ha in E2.
  injection E1 as _ ->. injection E2 as _ ->.
  split; [|repeat split].
  unfold getValidAccessToken. unfold bind at 1.
  rewrite (loadTokens_stored w t Hfs). unfold bind at 1. rewrite Hr.
  unfold bind at 1. rewrite Ha. reflexivity.
Qed.

(** ** Request pipeline *)

Create HintDb pipeline.

Lemma keeps_ret A (a : A) : keeps (ret a).
Proof. intros w. split; reflexivity. Qed.

Lemma keeps_throw A e : keeps (@throw A e).
Proof. intros w. split; reflexivity. Qed.

Lemma keeps_bind A B (m : M A) (k : A -> M B) :
  keeps m -> (forall a, keeps (k a)) -> keeps (bind m k).
Proof.
  intros Hm Hk w. unfold bind. specialize (Hm w).
  destruct (m w) as [[a|e] w1]; cbn in *; [|exact Hm].
  destruct (Hk a w1) as [H1 H2]. destruct Hm as [H3 H4].
  split; congruence.
Qed.

Lemma keeps_tryCatch A (m : M A) (h : JsError -> M A) :
  keeps m -> (forall e, keeps (h e)) -> keeps (tryCatch m h).
Proof.
  intros Hm Hh w. unfold tryCatch. specialize (Hm w).
  destruct (m w) as [[a|e] w1]; cbn in *; [exact Hm|].
  destruct (Hh e w1) as [H1 H2]. destruct Hm as [H3 H4].
  split; congruence.
Qed.

Lemma plain_ret A (a : A) : plain (ret a).
Proof. intros w e [=]. Qed.

Lemma plain_throw A cls msg : plain (@throw A (Error cls msg)).
Proof. intros w e [= <-]. eauto. Qed.

Lemma plain_bind A B (m : M A) (k : A -> M B) :
  plain m -> (forall a, plain (k a)) -> plain (bind m k).
Proof.
  intros Hm Hk w e. unfold bind. specialize (Hm w).
  destruct (m w) as [[a|e1] w1]; cbn in *; [apply Hk|].
  intros [= <-]. apply Hm. reflexivity.
Qed.

Lemma plain_tryCatch A (m : M A) (h : JsError -> M A) :
  (forall e, plain (h e)) -> plain (tryCatch m h).
Proof.
  intros Hh w e. unfold tryCatch.
  destruct (m w) as [[a|e1] w1]; cbn; [intros [=]|apply Hh].
Qed.

#[local] Hint Resolve keeps_ret keeps_throw keeps_bind keeps_tryCatch
  plain_ret plain_throw plain_bind plain_tryCatch : pipeline.

Lemma keeps_getTokenFilePath : keeps getTokenFilePath.
Proof. intros w. unfold getTokenFilePath. destruct (fs w); split; reflexivity. Qed.

Lemma plain_getTokenFilePath : plain getTokenFilePath.
Proof. intros w e. unfold getTokenFilePath. destruct (fs w); intros [=]. Qed.

Lemma keeps_Date_now env : keeps (Date_now env).
Proof. intros w. split; reflexivity. Qed.

Lemma plain_Date_now env : plain (Date_now env).
Proof. intros w e [=]. Qed.

Lemma keeps_writeFileSync t : keeps (writeFileSync t).
Proof. intros w. split; reflexivity. Qed.

Lemma keeps_axios_post_token env f : keeps (axios_post_token env f).
Proof.
  intros w. unfold axios_post_token.
  destruct (tokenEndpoint env _ f); split; reflexivity.
Qed.

#[local] Hint Resolve keeps_getTokenFilePath plain_getTokenFilePath
  keeps_Date_now plain_Date_now keeps_writeFileSync keeps_axios_post_token
  : pipeline.

Lemma keeps_loadTokens : keeps loadTokens.
Proof.
  unfold loadTokens. apply keeps_bind; auto with pipeline.
  intros _ w. destruct (fs w) as [|[[t| |]|]]; split; reflexivity.
Qed.

Lemma plain_loadTokens : plain loadTokens.
Proof.
  unfold loadTokens. apply plain_bind; auto with pipeline.
  intros _ w e. destruct (fs w) as [|[[t| |]|]]; intros [=].
Qed.

Lemma keeps_clearTokens : keeps clearTokens.
Proof.
  unfold clearTokens. apply keeps_bind; auto with pipeline.
  intros _ w. destruct (fs w) as [|[c|]]; split; reflexivity.
Qed.

Lemma plain_clearTokens : plain clearTokens.
Proof.
  unfold clearTokens. apply plain_bind; auto with pipeline.
  intros _ w e. destruct (fs w) as [|[c|]]; intros [=].
Qed.

Lemma keeps_isRefreshTokenExpired env t : keeps (isRefreshTokenExpired env t).
Proof.
  unfold isRefreshTokenExpired.
  destruct (refresh_token_expires_at t) as [e|]; [destruct (e =? 0)|];
    auto 6 with pipeline.
Qed.

Lemma plain_isRefreshTokenExpired env t : plain (isRefreshTokenExpired env t).
Proof.
  unfold isRefreshTokenExpired.
  destruct (refresh_token_expires_at t) as [e|]; [destruct (e =? 0)|];
    auto 6 with pipeline.
Qed.

Lemma keeps_isAccessTokenExpired env t : keeps (isAccessTokenExpired env t).
Proof.
  unfold isAccessTokenExpired.
  destruct (access_token_expires_at t) as [e|]; [destruct (e =? 0)|];
    auto 6 with pipeline.
Qed.

Lemma plain_isAccessTokenExpired env t : plain (isAccessTokenExpired env t).
Proof.
  unfold isAccessTokenExpired.
  destruct (access_token_expires_at t) as [e|]; [destruct (e =? 0)|];
    auto 6 with pipeline.
Qed.

Lemma keeps_saveTokens env t : keeps (saveTokens env t).
Proof. unfold saveTokens. auto 8 with pipeline. Qed.

Lemma keeps_refreshAccessToken env rt c : keeps (refreshAccessToken env rt c).
Proof.
  unfold refreshAccessToken. apply keeps_bind; auto with pipeline.
  intros a. apply keeps_saveTokens.
Qed.

#[local] Hint Resolve keeps_loadTokens plain_loadTokens keeps_clearTokens
  plain_clearTokens keeps_isRefreshTokenExpired plain_isRefreshTokenExpired
  keeps_isAccessTokenExpired plain_isAccessTokenExpired keeps_saveTokens
  keeps_refreshAccessToken : pipeline.

(** [getValidAccessToken] sends nothing to the API and leaves the
    configuration alone. *)
Lemma keeps_getValidAccessToken env c : keeps (getValidAccessToken env c).
Proof.
  unfold getValidAccessToken. apply keeps_bind; auto with pipeline.
  intros [t|]; auto with pipeline.
  apply keeps_bind; auto with pipeline.
  intros [|]; auto with pipeline.
  apply keeps_bind; auto with pipeline.
  intros [|]; auto 8 with pipeline.
Qed.

(** [getValidAccessToken] throws plain [Error]s only: a failure of the token
    endpoint is caught and replaced. *)
Lemma plain_getValidAccessToken env c : plain (getValidAccessToken env c).
Proof.
  unfold getValidAccessToken. apply plain_bind; auto with pipeline.
  intros [t|]; [|unfold msg_not_authenticated; auto with pipeline].
  apply plain_bind; auto with pipeline.
  intros [|]; [unfold msg_session_expired; auto with pipeline|].
  apply plain_bind; auto with pipeline.
  intros [|]; auto 8 with pipeline.
Qed.

Lemma requestInterceptor_run env cfg w :
  requestInterceptor env cfg w =
  match oauthConfig w with
  | None => (Throw (Error ConfigurationError msg_no_config), w)
  | Some oc =>
      match getValidAccessToken env oc w with
      | (Ok accessToken, w1) =>
          (Ok (set_Authorization (Bearer accessToken) cfg), w1)
      | (Throw e, w1) => (Throw e, w1)
      end
  end.
Proof.
  unfold requestInterceptor. destruct (oauthConfig w) as [oc|]; [|reflexivity].
  run. destruct (getValidAccessToken env oc w) as [[tok|e] w1]; reflexivity.
Qed.

Lemma keeps_requestInterceptor env cfg : keeps (requestInterceptor env cfg).
Proof.
  intros w. rewrite requestInterceptor_run.
  destruct (oauthConfig w) as [oc|] eqn:E; [|split; cbn; congruence].
  pose proof (keeps_getValidAccessToken env oc w) as H. rewrite E in H.
  destruct (getValidAccessToken env oc w) as [[tok|e] w1]; exact H.
Qed.

Lemma plain_requestInterceptor env cfg : plain (requestInterceptor env cfg).
Proof.
  intros w e. rewrite requestInterceptor_run.
  destruct (oauthConfig w) as [oc|]; [|intros [= <-]; eauto].
  pose proof (plain_getValidAccessToken env oc w) as H.
  destruct (getValidAccessToken env oc w) as [[tok|e1] w1]; cbn in *;
    [intros [=]|intros [= <-]; apply H; reflexivity].
Qed.

(** What the request interceptor hands to the transport is the request it
    was given, with the bearer header set. *)
Lemma requestInterceptor_ok env cfg w cfg1 w1 :
  requestInterceptor env cfg w = (Ok cfg1, w1) ->
  exists oc accessToken,
    oauthConfig w = Some oc /\
    getValidAccessToken env oc w = (Ok accessToken, w1) /\
    cfg1 = set_Authorization (Bearer accessToken) cfg.
Proof.
  rewrite requestInterceptor_run.
  destruct (oauthConfig w) as [oc|]; [|intros [=]].
  destruct (getValidAccessToken env oc w) as [[tok|e] w2] eqn:E; intros [= <- <-].
  eauto.
Qed.

(** The rejection handler lets every error but a first 401 through. *)
Lemma responseRejected_plain env req cls msg w :
  responseRejected env req (Error cls msg) w = Some (Throw (Error cls msg), w).
Proof. reflexivity. Qed.

Lemma responseRejected_not401 env req cfg o w :
  is401 o = false ->
  responseRejected env req (transportError cfg o) w =
  Some (Throw (transportError cfg o), w).
Proof.
  intros H. destruct o as [r|code message]; cbn in *; [|reflexivity].
  rewrite H. reflexivity.
Qed.

Lemma responseRejected_retried env req cfg o w :
  _retry cfg = true ->
  responseRejected env req (transportError cfg o) w =
  Some (Throw (transportError cfg o), w).
Proof.
  intros H. destruct o as [r|code message]; cbn in *; [|reflexivity].
  rewrite H. destruct (status r =? 401); [|reflexivity].
  destruct (oauthConfig w); reflexivity.
Qed.

(** The first 401: the request is marked, a token is fetched, and the marked
    request goes out again with the new header; a failure to get the token
    becomes the SessionExpiredError of the interceptor. *)
Lemma responseRejected_first401 env req cfg o oc w :
  is401 o = true -> _retry cfg = false -> oauthConfig w = Some oc ->
  responseRejected env req (transportError cfg o) w =
  match getValidAccessToken env oc w with
  | (Ok accessToken, w1) =>
      req (set_Authorization (Bearer accessToken) (set_retry true cfg)) w1
  | (Throw _, w1) =>
      Some (Throw (Error SessionExpiredError msg_session_expired), w1)
  end.
Proof.
  intros H R C. destruct o as [r|code message]; cbn in *; [|discriminate].
  rewrite H, C, R. cbn. unfold await, tryCatch, bind, ret, throw.
  destruct (getValidAccessToken env oc w) as [[tok|e] w1]; reflexivity.
Qed.

Lemma is2xx_not401 o : is2xx o = true -> is401 o = false.
Proof.
  destruct o as [r|c m]; cbn; [|reflexivity].
  intros H. apply andb_prop in H. destruct H as [H1 H2].
  apply Z.leb_le in H1. apply Z.ltb_lt in H2. apply Z.eqb_neq. lia.
Qed.

Lemma settle_rejects cfg o :
  is2xx o = false -> settle cfg o = Throw (transportError cfg o).
Proof.
  destruct o as [r|c m]; cbn; [|reflexivity]. intros ->. reflexivity.
Qed.

(** A request stopped by the request interceptor is not sent. *)
Lemma request_before_send env fuel cfg w e w1 :
  requestInterceptor env cfg w = (Throw e, w1) ->
  request env (S fuel) cfg w = Some (Throw e, w1).
Proof.
  intros H. cbn [request]. rewrite H.
  destruct (plain_requestInterceptor env cfg w e) as (cls & msg & ->);
    [rewrite H; reflexivity|].
  reflexivity.
Qed.

(** A request that is sent: only a 401 on a request not yet retried reaches
    the retry; everything else is settled as it came back. *)
Lemma request_sent env fuel cfg w cfg1 w1 :
  requestInterceptor env cfg w = (Ok cfg1, w1) ->
  let o := apiServer env (length (apiCalls w1)) cfg1 in
  let w2 := set_apiCalls (apiCalls w1 ++ [cfg1]) w1 in
  request env (S fuel) cfg w =
  if is401 o && negb (_retry cfg1)
  then responseRejected env (request env fuel) (transportError cfg1 o) w2
  else Some (settle cfg1 o, w2).
Proof.
  intros H o w2. cbn [request]. rewrite H. unfold dispatchRequest.
  fold o. fold w2.
  destruct (is2xx o) eqn:E2.
  - rewrite (is2xx_not401 o E2). cbn.
    destruct o as [r|c m]; cbn in *; [|discriminate]. rewrite E2. reflexivity.
  - rewrite (settle_rejects cfg1 o E2).
    destruct (is401 o) eqn:E4; cbn.
    + destruct (_retry cfg1) eqn:R; cbn; [|reflexivity].
      apply responseRejected_retried. exact R.
    + apply responseRejected_not401. exact E4.
Qed.

(** [handleApiError] on the errors of the transport: one fixed text per
    status of the taxonomy. *)
Lemma handleApiError_status cfg r :
  let e := transportError cfg (Http r) in
  (status r = 400 ->
     handleApiError e = ("❌ Requisição inválida: " ++ errorMsg_of (data r))%string) /\
  (status r = 403 ->
     handleApiError e = ("❌ Acesso negado: " ++ errorMsg_of (data r))%string) /\
  (status r = 404 -> handleApiError e = "❌ Recurso não encontrado") /\
  (status r = 429 ->
     handleApiError e =
     "❌ Limite de requisições excedido. Aguarde antes de tentar novamente.") /\
  (status r = 500 -> handleApiError e = "❌ Erro interno do servidor Tiny") /\
  (status r = 503 ->
     handleApiError e = "❌ Serviço temporariamente indisponível").
Proof.
  cbv zeta. unfold transportError, handleApiError.
  repeat split; intros H; rewrite !H; reflexivity.
Qed.

Lemma handleApiError_401 cfg r :
  status r = 401 ->
  handleApiError (transportError cfg (Http r)) =
  "❌ Não autorizado. Execute 'tiny-mcp-auth' para autenticar.".
Proof.
  unfold transportError, handleApiError. intros H. rewrite !H. reflexivity.
Qed.

Lemma handleApiError_failed cfg code message :
  includes "Sessão expirada" message = false ->
  includes "Não autenticado" message = false ->
  handleApiError (transportError cfg (Failed code message)) =
  if String.eqb code "ECONNABORTED"
  then "❌ Timeout: a requisição demorou muito para responder"
  else if String.eqb code "ENOTFOUND" || String.eqb code "ECONNREFUSED"
       then "❌ Não foi possível conectar ao servidor Tiny"
       else ("❌ Erro de conexão: " ++ message)%string.
Proof.
  intros H1 H2. unfold transportError, handleApiError. rewrite H1, H2. reflexivity.
Qed.

(** C8. Once the request is sent, an answer that is not a 401 (a status such
    as 400, 403, 404, 429, 500, 503, or a transport failure such as a timeout
    or a connection failure) ends the call: the request is not sent again,
    nothing is posted to the token endpoint and the store is not touched.
    The caller gets what came back as it is, and [handleApiError] maps it to
    the text of its class. *)
Theorem request_other_errors_not_retried env (fuel : nat)
    (cfg cfg1 : RequestConfig) (w w1 : World) :
  requestInterceptor env cfg w = (Ok cfg1, w1) ->
  let o := apiServer env (length (apiCalls w1)) cfg1 in
  is401 o = false ->
  let w2 := set_apiCalls (apiCalls w1 ++ [cfg1]) w1 in
  request env (S fuel) cfg w = Some (settle cfg1 o, w2) /\
  apiCalls w2 = apiCalls w ++ [cfg1] /\
  tokenCalls w2 = tokenCalls w1 /\ fs w2 = fs w1 /\ ticks w2 = ticks w1 /\
  (forall r, o = Http r -> is2xx o = false ->
     settle cfg1 o = Throw (transportError cfg1 o) /\
     classOf (transportError cfg1 o) = RemoteApiError /\
     (status r = 400 ->
        handleApiError (transportError cfg1 o) =
        ("❌ Requisição inválida: " ++ errorMsg_of (data r))%string) /\
     (status r = 403 ->
        handleApiError (transportError cfg1 o) =
        ("❌ Acesso negado: " ++ errorMsg_of (data r))%string) /\
     (status r = 404 ->
        handleApiError (transportError cfg1 o) = "❌ Recurso não encontrado") /\
     (status r = 429 ->
        handleApiError (transportError cfg1 o) =
        "❌ Limite de requisições excedido. Aguarde antes de tentar novamente.") /\
     (status r = 500 ->
        handleApiError (transportError cfg1 o) =
        "❌ Erro interno do servidor Tiny") /\
     (status r = 503 ->
        handleApiError (transportError cfg1 o) =
        "❌ Serviço temporariamente indisponível")) /\
  (forall code message, o = Failed code message ->
     settle cfg1 o = Throw (transportError cfg1 o) /\
     classOf (transportError cfg1 o) =
       (if String.eqb code "ECONNABORTED" then TimeoutError else NetworkError) /\
     (includes "Sessão expirada" message = false ->
      includes "Não autenticado" message = false ->
      handleApiError (transportError cfg1 o) =
      if String.eqb code "ECONNABORTED"
      then "❌ Timeout: a requisição demorou muito para responder"
      else if String.eqb code "ENOTFOUND" || String.eqb code "ECONNREFUSED"
           then "❌ Não foi possível conectar ao servidor Tiny"
           else ("❌ Erro de conexão: " ++ message)%string)).
Proof.
  intros H o H401 w2.
  pose proof (request_sent env fuel cfg w cfg1 w1 H) as Hrun.
  cbv zeta in Hrun. fold o in Hrun. fold w2 in Hrun.
  rewrite H401 in Hrun. cbn [andb] in Hrun.
  split; [exact Hrun|].
  split.
  { cbn. f_equal.
    pose proof (keeps_requestInterceptor env cfg w) as [K _].
    rewrite H in K. exact K. }
  split; [reflexivity|]. split; [reflexivity|]. split; [reflexivity|].
  split.
  - intros r Ho E2. split; [apply settle_rejects; exact E2|].
    rewrite Ho in *. cbn in H401. split.
    + reflexivity.
    + apply handleApiError_status.
  - intros code message Ho. rewrite Ho. split; [reflexivity|]. split.
    + reflexivity.
    + apply handleApiError_failed.
Qed.

Lemma requestInterceptor_retry env cfg w cfg1 w1 :
  requestInterceptor env cfg w = (Ok cfg1, w1) ->
  _retry cfg1 = _retry cfg /\ method cfg1 = method cfg /\
  url cfg1 = url cfg /\ payload cfg1 = payload cfg /\
  apiCalls w1 = apiCalls w /\ oauthConfig w1 = oauthConfig w.
Proof.
  intros H. destruct (requestInterceptor_ok env cfg w cfg1 w1 H)
    as (oc & tok & _ & _ & ->).
  pose proof (keeps_requestInterceptor env cfg w) as K. rewrite H in K.
  destruct K as [K1 K2]. repeat split; assumption.
Qed.

(** A request already marked as retried is sent at most once and settled as
    it comes back. *)
Lemma request_retried_run env fuel cfg w :
  _retry cfg = true ->
  request env (S fuel) cfg w =
  match requestInterceptor env cfg w with
  | (Throw e, w1) => Some (Throw e, w1)
  | (Ok cfg1, w1) =>
      Some (settle cfg1 (apiServer env (length (apiCalls w1)) cfg1),
            set_apiCalls (apiCalls w1 ++ [cfg1]) w1)
  end.
Proof.
  intros R. destruct (requestInterceptor env cfg w) as [[cfg1|e] w1] eqn:E.
  - rewrite (request_sent env fuel cfg w cfg1 w1 E). cbv zeta.
    destruct (requestInterceptor_retry env cfg w cfg1 w1 E) as (-> & _).
    rewrite R, andb_false_r. reflexivity.
  - apply request_before_send. exact E.
Qed.

(** With fuel for one retry the pipeline always returns, and it has sent the
    request at most twice. *)
Lemma request_at_most_two_sends env fuel cfg w :
  exists res w',
    request env (S (S fuel)) cfg w = Some (res, w') /\
    (length (apiCalls w') <= length (apiCalls w) + 2)%nat.
Proof.
  destruct (requestInterceptor env cfg w) as [[cfg1|e] w1] eqn:E.
  - rewrite (request_sent env (S fuel) cfg w cfg1 w1 E). cbv zeta.
    destruct (requestInterceptor_retry env cfg w cfg1 w1 E)
      as (_ & _ & _ & _ & K1 & K2).
    destruct (requestInterceptor_ok env cfg w cfg1 w1 E) as (oc & tok & C & _ & _).
    destruct (is401 _ && negb (_retry cfg1)) eqn:T.
    + apply andb_prop in T. destruct T as [T1 T2].
      apply negb_true_iff in T2.
      rewrite (responseRejected_first401 env _ cfg1 _ oc _ T1 T2)
        by (cbn; congruence).
      set (w2 := set_apiCalls (apiCalls w1 ++ [cfg1]) w1).
      pose proof (keeps_getValidAccessToken env oc w2) as [G1 _].
      destruct (getValidAccessToken env oc w2) as [[tok2|e2] w3]; cbn in G1.
      * rewrite request_retried_run by reflexivity.
        set (cfg' := set_Authorization (Bearer tok2) (set_retry true cfg1)).
        pose proof (keeps_requestInterceptor env cfg' w3) as [G2 _].
        destruct (requestInterceptor env cfg' w3) as [[cfg2|e2] w4];
          cbn in G2; eexists; eexists; (split; [reflexivity|]); cbn;
          rewrite ?length_app, G2, G1, length_app, K1; cbn; lia.
      * eexists; eexists; (split; [reflexivity|]).
        rewrite G1, length_app, K1. cbn. lia.
    + eexists; eexists; (split; [reflexivity|]). cbn.
      rewrite length_app, K1. cbn. lia.
  - rewrite (request_before_send env (S fuel) cfg w e w1 E).
    pose proof (keeps_requestInterceptor env cfg w) as [K _]. rewrite E in K.
    eexists; eexists; (split; [reflexivity|]). cbn in K. rewrite K. lia.
Qed.

(** C2. For every new API request the pipeline returns and has sent the
    request at most twice.  When the first answer is a 401, the request is
    marked as retried and a token is fetched with [getValidAccessToken]: if
    that fails the caller gets the interceptor's SessionExpiredError; if it
    succeeds the marked request is issued once more, carrying the header of a
    freshly fetched token, and its result is the result of the call.  A second
    401 on that request is rejected to the caller as it came back, with no
    third send: it is the error of the HTTP client with the 401 response
    attached, not one of the program's own errors; the store and the log of
    token calls are as the second interceptor run left them, and
    [handleApiError] renders it as not authorized. *)
Theorem request_retries_once_on_401 env (fuel : nat) (cfg : RequestConfig)
    (w : World) :
  _retry cfg = false ->
  (exists res w',
     request env (S (S fuel)) cfg w = Some (res, w') /\
     (length (apiCalls w') <= length (apiCalls w) + 2)%nat) /\
  (forall oc cfg1 w1,
     oauthConfig w = Some oc ->
     requestInterceptor env cfg w = (Ok cfg1, w1) ->
     is401 (apiServer env (length (apiCalls w1)) cfg1) = true ->
     let w2 := set_apiCalls (apiCalls w1 ++ [cfg1]) w1 in
     (forall e w3,
        getValidAccessToken env oc w2 = (Throw e, w3) ->
        request env (S (S fuel)) cfg w =
          Some (Throw (Error SessionExpiredError msg_session_expired), w3) /\
        apiCalls w3 = apiCalls w ++ [cfg1]) /\
     (forall accessToken w3,
        getValidAccessToken env oc w2 = (Ok accessToken, w3) ->
        let retried :=
          set_Authorization (Bearer accessToken) (set_retry true cfg1) in
        request env (S (S fuel)) cfg w = request env (S fuel) retried w3 /\
        (forall e w4,
           requestInterceptor env retried w3 = (Throw e, w4) ->
           request env (S (S fuel)) cfg w = Some (Throw e, w4) /\
           apiCalls w4 = apiCalls w ++ [cfg1]) /\
        (forall cfg2 w4,
           requestInterceptor env retried w3 = (Ok cfg2, w4) ->
           let o2 := apiServer env (length (apiCalls w4)) cfg2 in
           let w5 := set_apiCalls (apiCalls w4 ++ [cfg2]) w4 in
           request env (S (S fuel)) cfg w = Some (settle cfg2 o2, w5) /\
           apiCalls w5 = apiCalls w ++ [cfg1; cfg2] /\
           method cfg2 = method cfg /\ url cfg2 = url cfg /\
           payload cfg2 = payload cfg /\ _retry cfg2 = true /\
           (exists fresh,
              getValidAccessToken env oc w3 = (Ok fresh, w4) /\
              Authorization cfg2 = Some (Bearer fresh)) /\
           (is401 o2 = true ->
              settle cfg2 o2 = Throw (transportError cfg2 o2) /\
              (exists message code r,
                 o2 = Http r /\ status r = 401 /\
                 transportError cfg2 o2 = AxiosError message code cfg2 (Some r)) /\
              fs w5 = fs w4 /\ tokenCalls w5 = tokenCalls w4 /\
              handleApiError (transportError cfg2 o2) =
              "❌ Não autorizado. Execute 'tiny-mcp-auth' para autenticar.")))).
Proof.
  intros R. split; [apply request_at_most_two_sends|].
  intros oc cfg1 w1 C E T w2.
  destruct (requestInterceptor_retry env cfg w cfg1 w1 E)
    as (R1 & M1 & U1 & P1 & K1 & K2).
  assert (Hrun : request env (S (S fuel)) cfg w =
                 match getValidAccessToken env oc w2 with
                 | (Ok accessToken, w3) =>
                     request env (S fuel)
                       (set_Authorization (Bearer accessToken)
                          (set_retry true cfg1)) w3
                 | (Throw _, w3) =>
                     Some (Throw (Error SessionExpiredError msg_session_expired),
                           w3)
                 end).
  { rewrite (request_sent env (S fuel) cfg w cfg1 w1 E). cbv zeta.
    rewrite T, R1, R. cbn [andb negb].
    apply responseRejected_first401; [exact T|congruence|].
    cbn. congruence. }
  pose proof (keeps_getValidAccessToken env oc w2) as [G1 G2].
  split.
  - intros e w3 G. rewrite G in Hrun, G1. split; [exact Hrun|].
    cbn in G1. rewrite G1, K1. reflexivity.
  - intros tok w3 G retried. rewrite G in Hrun, G1, G2. cbn in G1, G2.
    split; [exact Hrun|].
    assert (Hret : _retry retried = true) by reflexivity.
    pose proof (request_retried_run env fuel retried w3 Hret) as Hrun2.
    split.
    + intros e w4 E2. rewrite E2 in Hrun2.
      split; [rewrite Hrun; exact Hrun2|].
      pose proof (keeps_requestInterceptor env retried w3) as [K3 _].
      rewrite E2 in K3. cbn in K3. rewrite K3, G1, K1. reflexivity.
    + intros cfg2 w4 E2 o2 w5. rewrite E2 in Hrun2.
      destruct (requestInterceptor_retry env retried w3 cfg2 w4 E2)
        as (R2 & M2 & U2 & P2 & K3 & K4).
      destruct (requestInterceptor_ok env retried w3 cfg2 w4 E2)
        as (oc' & fresh & C' & G' & ->).
      assert (oc' = oc) by (cbn in G2; congruence). subst oc'.
      split; [rewrite Hrun; exact Hrun2|].
      split; [subst w5; cbn; rewrite K3, G1, K1, <- app_assoc; reflexivity|].
      split; [cbn; congruence|]. split; [cbn; congruence|].
      split; [cbn; congruence|]. split; [reflexivity|].
      split; [exists fresh; split; [exact G'|reflexivity]|].
      intros T2. destruct o2 as [r2|c2 m2] eqn:Ho; [|discriminate].
      cbn in T2. apply Z.eqb_eq in T2.
      split; [|split; [|split; [|split]]].
      * apply settle_rejects. cbn. rewrite T2. reflexivity.
      * eexists. eexists. exists r2.
        split; [reflexivity|]. split; [exact T2|reflexivity].
      * reflexivity.
      * reflexivity.
      * apply handleApiError_401. exact T2.
Qed.

(** ** isAuthenticated *)

Lemma loadTokens_total w :
  exists o w', loadTokens w = (Ok o, w') /\
               tokenCalls w' = tokenCalls w /\ apiCalls w' = apiCalls w /\
               oauthConfig w' = oauthConfig w /\ ticks w' = ticks w.
Proof.
  unfold loadTokens, getTokenFilePath. run.
  destruct (fs w) as [|[[t| |]|]] eqn:E; cbn; rewrite ?E;
    eexists; eexists; (split; [reflexivity|]); repeat split.
Qed.

Lemma isAuthenticated_run w :
  isAuthenticated w =
  (Ok (match fst (loadTokens w) with Ok (Some _) => true | _ => false end),
   snd (loadTokens w)).
Proof.
  unfold isAuthenticated. run.
  destruct (loadTokens_total w) as (o & w' & E & _). rewrite E.
  destruct o; reflexivity.
Qed.

Lemma request_stopped env fuel cfg c w e w1 :
  oauthConfig w = Some c ->
  getValidAccessToken env c w = (Throw e, w1) ->
  request env (S fuel) cfg w = Some (Throw e, w1).
Proof.
  intros C G. apply request_before_send.
  rewrite requestInterceptor_run, C, G. reflexivity.
Qed.

(** C10, as the code has it.  [isAuthenticated] answers true exactly when
    [loadTokens] returns a pair, whatever its expiry.  With a stored pair
    whose tokens are both expired it answers true, and the next authenticated
    call ([getValidAccessToken], and with it any API request) fails with the
    SessionExpiredError of the expired session and removes the record; from
    then on [isAuthenticated] answers false and a further call fails with the
    NotAuthenticatedError. *)
Theorem isAuthenticated_ignores_expiry env (c : OAuthConfig) (w : World) :
  (fst (isAuthenticated w) = Ok true <->
   exists t, fst (loadTokens w) = Ok (Some t)) /\
  (forall t,
     fs w = Dir (Some (JsonTokens t)) ->
     fst (isAccessTokenExpired env t w) = Ok true ->
     fst (isRefreshTokenExpired env t w) = Ok true ->
     isAuthenticated w = (Ok true, w) /\
     exists w1,
       getValidAccessToken env c w =
         (Throw (Error SessionExpiredError msg_session_expired), w1) /\
       isAuthenticated w1 = (Ok false, w1) /\
       getValidAccessToken env c w1 =
         (Throw (Error NotAuthenticatedError msg_not_authenticated), w1) /\
       (oauthConfig w = Some c ->
        forall fuel cfg,
          request env (S fuel) cfg w =
            Some (Throw (Error SessionExpiredError msg_session_expired), w1) /\
          request env (S fuel) cfg w1 =
            Some (Throw (Error NotAuthenticatedError msg_not_authenticated),
                  w1))).
Proof.
  split.
  - rewrite isAuthenticated_run. cbn [fst].
    destruct (fst (loadTokens w)) as [[t|]|e]; split;
      try (intros [= ]); try (intros [t' [= ]]); eauto.
  - intros t Hfs _ Hr. split.
    + rewrite isAuthenticated_run, (loadTokens_stored w t Hfs). reflexivity.
    + destruct (session_expired_run env c t w Hfs Hr) as (w1 & Hrun & Hfs1).
      exists w1. split; [exact Hrun|].
      pose proof (loadTokens_empty w1 Hfs1) as Hl.
      assert (Hrun1 : getValidAccessToken env c w1 =
                      (Throw (Error NotAuthenticatedError msg_not_authenticated),
                       w1)).
      { rewrite getValidAccessToken_absent; rewrite Hl; reflexivity. }
      split; [rewrite isAuthenticated_run, Hl; reflexivity|].
      split; [exact Hrun1|].
      intros C fuel cfg. split.
      * apply (request_stopped env fuel cfg c w _ w1 C Hrun).
      * apply (request_stopped env fuel cfg c w1 _ w1); [|exact Hrun1].
        pose proof (keeps_getValidAccessToken env c w) as [_ K].
        rewrite Hrun in K. cbn in K. congruence.
Qed.

(** ** Interactive login *)

Lemma state_differs_true rs st : rs <> Some st -> state_differs rs st = true.
Proof.
  destruct rs as [s|]; cbn; [|reflexivity].
  intros H. destruct (String.eqb_spec s st); [congruence|reflexivity].
Qed.

Lemma reject_pending e l :
  promise l = Pending -> promise (reject e l) = Rejected e.
Proof. unfold reject. intros ->. reflexivity. Qed.

Lemma reject_settled e l :
  promise l <> Pending -> reject e l = l.
Proof. unfold reject. destruct (promise l); congruence. Qed.

Lemma reject_keeps e l :
  login_state (reject e l) = login_state l /\
  listening (reject e l) = listening l /\
  ((exists t, promise (reject e l) = Resolved t) ->
   exists t, promise l = Resolved t).
Proof.
  unfold reject. destruct (promise l) eqn:E; cbn; rewrite ?E; repeat split; auto.
  intros [t [=]].
Qed.

Lemma requestListener_mismatch env config u l w :
  pathname u = "/callback" ->
  searchParams_get "state" (searchParams u) <> Some (login_state l) ->
  exists e,
    classOf e = AuthExchangeError /\
    exists st text,
    requestListener env config (mkIncoming (Some u)) l w =
      (Ok (reject e (server_close (respond st text l))), w).
Proof.
  intros Hp Hs. unfold requestListener. cbn [req_url]. rewrite Hp.
  cbn [String.eqb Ascii.eqb Bool.eqb andb]. cbv zeta.
  destruct (truthy (searchParams_get "error" (searchParams u))).
  - eexists. split; [|eexists; eexists; reflexivity]. reflexivity.
  - rewrite (state_differs_true _ _ Hs), orb_true_r.
    eexists. split; [|eexists; eexists; reflexivity]. reflexivity.
Qed.

(** As long as every callback mismatches, a login attempt posts nothing and
    is never resolved. *)
Lemma loginRun_mismatch env config events :
  forall l w,
    Forall (mismatching (login_state l)) events ->
    exists l',
      loginRun env config events l w = (Ok l', w) /\
      login_state l' = login_state l /\
      ((exists t, promise l' = Resolved t) -> exists t, promise l = Resolved t).
Proof.
  induction events as [|ev rest IH]; intros l w HF.
  - exists l. repeat split; auto.
  - inversion HF as [|? ? Hev Hrest]; subst.
    assert (Hstep : exists l1, loginStep env config ev l w = (Ok l1, w) /\
                               login_state l1 = login_state l /\
                               ((exists t, promise l1 = Resolved t) ->
                                exists t, promise l = Resolved t)).
    { destruct ev as [req|err|]; cbn [loginStep].
      - destruct req as [[u|]]; cbn in Hev.
        + destruct (String.eqb_spec (pathname u) "/callback") as [Hp|Hp].
          * destruct (requestListener_mismatch env config u l w Hp (Hev Hp))
              as (e & _ & st & text & ->).
            eexists. split; [reflexivity|].
            destruct (reject_keeps e (server_close (respond st text l)))
              as (K1 & _ & K3). split; [exact K1|exact K3].
          * unfold requestListener. cbn [req_url].
            destruct (String.eqb_spec (pathname u) "/callback"); [congruence|].
            eexists. split; [reflexivity|]. split; [reflexivity|]. auto.
        + eexists. split; [reflexivity|]. split; [reflexivity|]. auto.
      - eexists. split; [reflexivity|].
        destruct (reject_keeps err l) as (K1 & _ & K3). split; assumption.
      - eexists. split; [reflexivity|].
        destruct (reject_keeps (Error TimeoutError msg_login_timeout)
                    (server_close l)) as (K1 & _ & K3). split; assumption. }
    destruct Hstep as (l1 & E1 & S1 & P1).
    rewrite <- S1 in Hrest.
    destruct (IH l1 w Hrest) as (l' & E' & S' & P').
    exists l'. cbn [loginRun]. unfold bind. rewrite E1.
    split; [exact E'|]. split; [congruence|]. auto.
Qed.

(** C7. A callback whose [state] is not the one generated for the login
    attempt makes the pending attempt fail with an AuthExchangeError and
    closes the server; the listener posts nothing to the token endpoint (the
    world is the same after it).  Over a whole attempt: while every callback
    mismatches, nothing is posted and the attempt is never resolved. *)
Theorem requestListener_state_mismatch env (config : OAuthConfig)
    (u : CallbackUrl) (l : Login) (w : World) :
  pathname u = "/callback" ->
  searchParams_get "state" (searchParams u) <> Some (login_state l) ->
  (exists l',
     requestListener env config (mkIncoming (Some u)) l w = (Ok l', w) /\
     tokenCalls (snd (requestListener env config (mkIncoming (Some u)) l w))
       = tokenCalls w /\
     listening l' = false /\
     (promise l = Pending ->
      exists e, promise l' = Rejected e /\ classOf e = AuthExchangeError) /\
     (promise l <> Pending -> promise l' = promise l)) /\
  (forall events w0,
     Forall (mismatching (login_state l)) events ->
     exists l',
       loginRun env config events l w0 = (Ok l', w0) /\
       ((exists t, promise l' = Resolved t) -> exists t, promise l = Resolved t)).
Proof.
  intros Hp Hs. split.
  - destruct (requestListener_mismatch env config u l w Hp Hs)
      as (e & Hc & st & text & E).
    eexists. split; [exact E|]. rewrite E. split; [reflexivity|].
    split.
    { destruct (reject_keeps e (server_close (respond st text l)))
        as (_ & K & _). rewrite K. reflexivity. }
    split.
    + intros HP. exists e. split; [|exact Hc].
      apply reject_pending. exact HP.
    + intros HP. rewrite reject_settled; [reflexivity|exact HP].
  - intros events w0 HF.
    destruct (loginRun_mismatch env config events l w0 HF) as (l' & E & _ & P).
    exists l'. split; assumption.
Qed.

(** * Examples *)

Ltac by_computation := vm_compute; first [reflexivity | discriminate].

(** The end-to-end example of the spec: one second before the access token
    expires the call refreshes, and the store then holds A2/R2. *)
Lemma getValidAccessToken_refreshes_witness :
  let E := Scenario.env Scenario.inBuffer Scenario.serverError in
  exists w',
    getValidAccessToken E Scenario.config Scenario.world = (Ok "A2", w') /\
    tokenCalls w' =
      [[("grant_type", "refresh_token"); ("client_id", "client-id");
        ("client_secret", "client-secret"); ("refresh_token", "R1")]] /\
    fs w' = Dir (Some (JsonTokens
                         (withExpiry Scenario.inBuffer Scenario.A2R2))) /\
    fst (loadTokens w') =
      Ok (Some (withExpiry Scenario.inBuffer Scenario.A2R2)).
Proof.
  intros E.
  assert (Hfs : fs Scenario.world = Dir (Some (JsonTokens Scenario.A1R1)))
    by reflexivity.
  assert (Hr : isRefreshTokenExpired E Scenario.A1R1 Scenario.world =
               (Ok false, set_ticks 1 Scenario.world)) by by_computation.
  assert (Ha : isAccessTokenExpired E Scenario.A1R1 (set_ticks 1 Scenario.world) =
               (Ok true, set_ticks 2 Scenario.world)) by by_computation.
  destruct (getValidAccessToken_refreshes E Scenario.config Scenario.A1R1
              Scenario.world _ _ Hfs Hr Ha) as [Hok _].
  destruct (Hok Scenario.A2R2) as (w' & G1 & G2 & G3 & G4); [by_computation|].
  exists w'. split; [exact G1|].
  split; [rewrite G2; by_computation|].
  split; [rewrite G3; by_computation|].
  rewrite G4; by_computation.
Defined.

Lemma getValidAccessToken_session_expired_witness :
  let E := Scenario.env Scenario.late Scenario.serverError in
  exists w',
    getValidAccessToken E Scenario.config Scenario.world =
      (Throw (Error SessionExpiredError msg_session_expired), w') /\
    fs w' = Dir None /\
    loadTokens w' = (Ok None, w').
Proof.
  intros E.
  assert (Hfs : fs Scenario.world = Dir (Some (JsonTokens Scenario.A1R1)))
    by reflexivity.
  assert (Hr : fst (isRefreshTokenExpired E Scenario.A1R1 Scenario.world) =
               Ok true) by by_computation.
  destruct (getValidAccessToken_session_expired E Scenario.config
              Scenario.A1R1 Scenario.world Hfs Hr) as (w' & G1 & G2 & G3 & _).
  exists w'. split; [exact G1|]. split; [exact G2|exact G3].
Defined.

Lemma getValidAccessToken_unchanged_witness :
  let E := Scenario.env Scenario.fresh Scenario.serverError in
  getValidAccessToken E Scenario.config Scenario.world =
    (Ok "A1", set_ticks 2 Scenario.world) /\
  fs (set_ticks 2 Scenario.world) = fs Scenario.world.
Proof.
  intros E.
  assert (Hfs : fs Scenario.world = Dir (Some (JsonTokens Scenario.A1R1)))
    by reflexivity.
  assert (Hr : isRefreshTokenExpired E Scenario.A1R1 Scenario.world =
               (Ok false, set_ticks 1 Scenario.world)) by by_computation.
  assert (Ha : isAccessTokenExpired E Scenario.A1R1 (set_ticks 1 Scenario.world) =
               (Ok false, set_ticks 2 Scenario.world)) by by_computation.
  destruct (getValidAccessToken_unchanged E Scenario.config Scenario.A1R1
              Scenario.world _ _ Hfs Hr Ha) as (H1 & H2 & _).
  split; [exact H1|exact H2].
Defined.

(** Four minutes before the expiry the access token counts as expired. *)
Lemma isAccessTokenExpired_iff_witness :
  let E := Scenario.env (Scenario.t0 + 14400 * 1000 - 4 * 60 * 1000)
                        Scenario.serverError in
  fst (isAccessTokenExpired E Scenario.A1R1 Scenario.world) = Ok true.
Proof.
  intros E.
  assert (Hnow : 0 <= clock E (ticks Scenario.world)) by by_computation.
  destruct (isAccessTokenExpired_iff E Scenario.A1R1 Scenario.world Hnow)
    as (_ & _ & H4 & _).
  apply (H4 (Scenario.t0 + 14400 * 1000)); by_computation.
Defined.

(** One millisecond before the expiry the refresh token is still valid. *)
Lemma isRefreshTokenExpired_iff_witness :
  let E := Scenario.env (Scenario.late - 1) Scenario.serverError in
  fst (isRefreshTokenExpired E Scenario.A1R1 Scenario.world) = Ok false.
Proof.
  intros E.
  assert (Hnow : 0 <= clock E (ticks Scenario.world)) by by_computation.
  destruct (isRefreshTokenExpired_iff E Scenario.A1R1 Scenario.world Hnow)
    as (_ & _ & _ & H1 & _).
  apply (H1 Scenario.late); by_computation.
Defined.

(** A forged callback: the attempt is rejected, nothing is posted. *)
Lemma requestListener_state_mismatch_witness :
  let E := Scenario.env Scenario.fresh Scenario.serverError in
  exists l',
    requestListener E Scenario.config (mkIncoming (Some Scenario.forged))
      Scenario.attempt Scenario.world = (Ok l', Scenario.world) /\
    listening l' = false /\
    exists e, promise l' = Rejected e /\ classOf e = AuthExchangeError.
Proof.
  intros E.
  assert (Hp : pathname Scenario.forged = "/callback") by reflexivity.
  assert (Hs : searchParams_get "state" (searchParams Scenario.forged)
               <> Some (login_state Scenario.attempt)) by by_computation.
  destruct (requestListener_state_mismatch E Scenario.config Scenario.forged
              Scenario.attempt Scenario.world Hp Hs)
    as [(l' & H1 & _ & H3 & H4 & _) _].
  exists l'. split; [exact H1|]. split; [exact H3|].
  apply H4. reflexivity.
Defined.

(** A 500 is handed to the caller after one send. *)
Lemma request_other_errors_not_retried_witness :
  let E := Scenario.env Scenario.fresh Scenario.serverError in
  let sent := mkRequest "get" "/produtos" "" (Some "Bearer A1") false in
  request E 1 Scenario.getProducts Scenario.world =
    Some (Throw (transportError sent Scenario.serverError),
          set_apiCalls [sent] (set_ticks 2 Scenario.world)) /\
  handleApiError (transportError sent Scenario.serverError) =
    "❌ Erro interno do servidor Tiny".
Proof.
  intros E sent.
  assert (Hi : requestInterceptor E Scenario.getProducts Scenario.world =
               (Ok sent, set_ticks 2 Scenario.world)) by by_computation.
  assert (Ho : is401 (apiServer E (length (apiCalls (set_ticks 2 Scenario.world)))
                        sent) = false) by by_computation.
  destruct (request_other_errors_not_retried E 0 Scenario.getProducts sent
              Scenario.world _ Hi Ho) as (H1 & _ & _ & _ & _ & H6 & _).
  split; [rewrite H1; by_computation|].
  destruct (H6 (mkResponse 500 None)) as (_ & _ & _ & _ & _ & _ & H500 & _);
    [by_computation|by_computation|].
  rewrite <- H500; by_computation.
Defined.

(** Two 401 in a row: two sends, and the second 401 reaches the caller. *)
Lemma request_retries_once_on_401_witness :
  let E := Scenario.env Scenario.fresh Scenario.unauthorized in
  let first := mkRequest "get" "/produtos" "" (Some "Bearer A1") false in
  let second := mkRequest "get" "/produtos" "" (Some "Bearer A1") true in
  request E 2 Scenario.getProducts Scenario.world =
    Some (Throw (transportError second Scenario.unauthorized),
          set_apiCalls [first; second] (set_ticks 6 Scenario.world)) /\
  handleApiError (transportError second Scenario.unauthorized) =
    "❌ Não autorizado. Execute 'tiny-mcp-auth' para autenticar.".
Proof.
  intros E first second.
  assert (Hnew : _retry Scenario.getProducts = false) by reflexivity.
  destruct (request_retries_once_on_401 E 0 Scenario.getProducts
              Scenario.world Hnew) as [_ H].
  assert (Hc : oauthConfig Scenario.world = Some Scenario.config) by reflexivity.
  assert (Hi : requestInterceptor E Scenario.getProducts Scenario.world =
               (Ok first, set_ticks 2 Scenario.world)) by by_computation.
  assert (Ho : is401 (apiServer E (length (apiCalls (set_ticks 2 Scenario.world)))
                        first) = true) by by_computation.
  destruct (H Scenario.config first _ Hc Hi Ho) as [_ Hretry].
  assert (Hg : getValidAccessToken E Scenario.config
                 (set_apiCalls (apiCalls (set_ticks 2 Scenario.world) ++ [first])
                    (set_ticks 2 Scenario.world)) =
               (Ok "A1", set_apiCalls [first] (set_ticks 4 Scenario.world)))
    by by_computation.
  destruct (Hretry "A1" _ Hg) as (_ & _ & Hsent).
  assert (Hi2 : requestInterceptor E
                  (set_Authorization (Bearer "A1") (set_retry true first))
                  (set_apiCalls [first] (set_ticks 4 Scenario.world)) =
                (Ok second, set_apiCalls [first] (set_ticks 6 Scenario.world)))
    by by_computation.
  destruct (Hsent second _ Hi2) as (H1 & _ & _ & _ & _ & _ & _ & H401).
  split; [rewrite H1; by_computation|].
  destruct H401 as (_ & _ & _ & _ & Htext); [by_computation|].
  rewrite <- Htext; by_computation.
Defined.

(** C2, where the claim fails.  The API answers every request with a 401
    while the stored pair A1/R1 is valid.  The request goes out twice and the
    caller gets the second 401 as the HTTP client rejected it: an error with
    the response attached and the client's own message, not the
    ["Sessão expirada"] error the program throws for an expired session.
    [handleApiError] shows it as not authorized, and the store still holds
    A1/R1, where an expired session clears it. *)
Lemma second_401_is_not_session_expired :
  let E := Scenario.env Scenario.fresh Scenario.unauthorized in
  let first := mkRequest "get" "/produtos" "" (Some "Bearer A1") false in
  let second := mkRequest "get" "/produtos" "" (Some "Bearer A1") true in
  let e := transportError second Scenario.unauthorized in
  exists w',
    request E 2 Scenario.getProducts Scenario.world = Some (Throw e, w') /\
    apiCalls w' = [first; second] /\
    (exists message code,
       e = AxiosError message code second (Some (mkResponse 401 None))) /\
    ~ (exists message w'',
         request E 2 Scenario.getProducts Scenario.world =
         Some (Throw (Error SessionExpiredError message), w'')) /\
    fs w' = Dir (Some (JsonTokens Scenario.A1R1)) /\
    fst (isAuthenticated w') = Ok true /\
    handleApiError e =
      "❌ Não autorizado. Execute 'tiny-mcp-auth' para autenticar." /\
    handleApiError (Error SessionExpiredError msg_session_expired) =
      "❌ Sessão expirada. Execute 'tiny-mcp-auth' para fazer login novamente.".
Proof.
  intros E first second e.
  assert (R : request E 2 Scenario.getProducts Scenario.world =
              Some (Throw e,
                    set_apiCalls [first; second] (set_ticks 6 Scenario.world)))
    by by_computation.
  eexists. split; [exact R|].
  split; [reflexivity|].
  split; [eexists; eexists; reflexivity|].
  split.
  { intros (message & w'' & H). rewrite R in H. discriminate H. }
  split; [reflexivity|]. split; [by_computation|].
  split; by_computation.
Qed.

(** At [late] both tokens of A1/R1 are expired: [isAuthenticated] says true,
    the first API request fails for the expired session and the second for
    the missing record. *)
Lemma isAuthenticated_ignores_expiry_witness :
  let E := Scenario.env Scenario.late Scenario.serverError in
  fst (isAuthenticated Scenario.world) = Ok true /\
  exists w1,
    request E 1 Scenario.getProducts Scenario.world =
      Some (Throw (Error SessionExpiredError msg_session_expired), w1) /\
    isAuthenticated w1 = (Ok false, w1) /\
    request E 1 Scenario.getProducts w1 =
      Some (Throw (Error NotAuthenticatedError msg_not_authenticated), w1).
Proof.
  intros E.
  destruct (isAuthenticated_ignores_expiry E Scenario.config Scenario.world)
    as [_ H].
  destruct (H Scenario.A1R1) as (H1 & w1 & _ & H3 & _ & H5);
    [reflexivity|by_computation|by_computation|].
  split; [rewrite H1; reflexivity|].
  exists w1. destruct (H5 eq_refl 0%nat Scenario.getProducts) as [R1 R2].
  split; [exact R1|]. split; [exact H3|exact R2].
Defined.

(** C10, where the claim fails.  The stored pair A1/R1 has both tokens
    expired and [isAuthenticated] answers true; the first authenticated call
    fails with a SessionExpiredError, but the call after it does not: the
    record is gone and it fails with the NotAuthenticatedError. *)
Lemma later_call_is_not_session_expired :
  let E := Scenario.env Scenario.late Scenario.serverError in
  let w1 := snd (getValidAccessToken E Scenario.config Scenario.world) in
  fst (isAccessTokenExpired E Scenario.A1R1 Scenario.world) = Ok true /\
  fst (isRefreshTokenExpired E Scenario.A1R1 Scenario.world) = Ok true /\
  fst (isAuthenticated Scenario.world) = Ok true /\
  ~ (forall e, fst (getValidAccessToken E Scenario.config w1) = Throw e ->
               classOf e = SessionExpiredError) /\
  ~ (forall e w2, request E 2 Scenario.getProducts w1 = Some (Throw e, w2) ->
                  classOf e = SessionExpiredError).
Proof.
  intros E w1.
  split; [by_computation|]. split; [by_computation|]. split; [by_computation|].
  split.
  - intros H.
    assert (Hcall : fst (getValidAccessToken E Scenario.config w1) =
                    Throw (Error NotAuthenticatedError msg_not_authenticated))
      by by_computation.
    specialize (H _ Hcall). discriminate H.
  - intros H.
    assert (Hcall : request E 2 Scenario.getProducts w1 =
                    Some (Throw (Error NotAuthenticatedError
                                   msg_not_authenticated), w1))
      by by_computation.
    specialize (H _ _ Hcall). discriminate H.
Qed.

(** * Further properties of the code *)

(** ** Token store and configuration *)

Lemma set_fs_same f w : fs w = f -> set_fs f w = w.
Proof. intros <-. destruct w; reflexivity. Qed.

Lemma clearTokens_run w :
  clearTokens w = (Ok tt, set_fs (Dir None) w) \/
  (fs w = Dir None /\ clearTokens w = (Ok tt, w)).
Proof.
  unfold clearTokens, getTokenFilePath. run.
  destruct (fs w) as [|[c|]] eqn:E; cbn; rewrite ?E; auto.
Qed.

(** X1. [clearTokens] never fails and is idempotent: whatever the store held
    (no directory, no file, a pair, unreadable text), afterwards the
    directory is there without the file, [loadTokens] returns absent, and a
    second [clearTokens] changes nothing.  Nothing is posted. *)
Theorem clearTokens_idempotent (w : World) :
  let w1 := snd (clearTokens w) in
  fst (clearTokens w) = Ok tt /\
  fs w1 = Dir None /\
  loadTokens w1 = (Ok None, w1) /\
  clearTokens w1 = (Ok tt, w1) /\
  tokenCalls w1 = tokenCalls w /\ ticks w1 = ticks w.
Proof.
  cbv zeta.
  assert (H : fst (clearTokens w) = Ok tt /\ fs (snd (clearTokens w)) = Dir None /\
              tokenCalls (snd (clearTokens w)) = tokenCalls w /\
              ticks (snd (clearTokens w)) = ticks w).
  { destruct (clearTokens_run w) as [E|[F E]]; rewrite E; cbn; auto. }
  destruct H as (H1 & H2 & H3 & H4).
  split; [exact H1|]. split; [exact H2|].
  split; [apply loadTokens_empty; exact H2|].
  split; [|split; assumption].
  destruct (clearTokens_run (snd (clearTokens w))) as [E|[_ E]]; [|exact E].
  rewrite E. f_equal. apply set_fs_same. exact H2.
Qed.

Lemma without_pair_run env c w :
  (forall t, fs w <> Dir (Some (JsonTokens t))) ->
  let w1 := set_fs (match fs w with NoDir => Dir None | f => f end) w in
  getValidAccessToken env c w =
    (Throw (Error NotAuthenticatedError msg_not_authenticated), w1) /\
  loadTokens w = (Ok None, w1).
Proof.
  intros H w1.
  assert (L : loadTokens w = (Ok None, w1)).
  { subst w1. unfold loadTokens, getTokenFilePath. run.
    destruct (fs w) as [|[[t| |]|]] eqn:E; cbn; rewrite ?E;
      try (exfalso; apply (H t); reflexivity);
      try (rewrite (set_fs_same _ w E); reflexivity); reflexivity. }
  split; [|exact L].
  rewrite getValidAccessToken_absent; rewrite L; reflexivity.
Qed.

Lemma loadTokens_without_pair w :
  (forall t, fs w <> Dir (Some (JsonTokens t))) ->
  fst (loadTokens
         (set_fs (match fs w with NoDir => Dir None | f => f end) w)) = Ok None.
Proof.
  intros H. unfold loadTokens, getTokenFilePath. run.
  destruct (fs w) as [|[[t| |]|]] eqn:E; cbn; try reflexivity.
  exfalso. apply (H t). reflexivity.
Qed.

(** X2. When the store holds no readable pair (no file, the text [null], or
    text that does not parse), [getValidAccessToken] fails with the
    NotAuthenticatedError and [isAuthenticated] answers false.  Nothing is
    posted, the clock is not read, and an unreadable file is left in place:
    only a missing directory is created. *)
Theorem getValidAccessToken_without_pair env (c : OAuthConfig) (w : World) :
  (forall t, fs w <> Dir (Some (JsonTokens t))) ->
  let w1 := set_fs (match fs w with NoDir => Dir None | f => f end) w in
  getValidAccessToken env c w =
    (Throw (Error NotAuthenticatedError msg_not_authenticated), w1) /\
  isAuthenticated w = (Ok false, w1).
Proof.
  intros H w1.
  destruct (without_pair_run env c w H) as [E L].
  split; [exact E|].
  rewrite isAuthenticated_run. cbv zeta in L. rewrite L. reflexivity.
Qed.

Lemma getValidAccessToken_without_pair_witness :
  let w := set_fs (Dir (Some Corrupt)) Scenario.world in
  getValidAccessToken (Scenario.env Scenario.fresh Scenario.serverError)
    Scenario.config w =
    (Throw (Error NotAuthenticatedError msg_not_authenticated), w) /\
  isAuthenticated w = (Ok false, w).
Proof.
  intros w.
  assert (H : forall t, fs w <> Dir (Some (JsonTokens t)))
    by (intros t; cbn; discriminate).
  exact (getValidAccessToken_without_pair
           (Scenario.env Scenario.fresh Scenario.serverError)
           Scenario.config w H).
Defined.

(** X3. [initializeApiClient] with a missing or empty [TINY_CLIENT_ID] or
    [TINY_CLIENT_SECRET] leaves the client without configuration, and every
    request then fails with the ConfigurationError before the store is read
    or anything is sent.  With both set, the configuration holds them, and
    the redirect URI falls back to [http://localhost:8080/callback] when
    [TINY_REDIRECT_URI] is missing or empty. *)
Theorem initializeApiClient_credentials env (penv : ProcessEnv) (w : World) :
  let w1 := snd (initializeApiClient penv w) in
  (truthy (TINY_CLIENT_ID penv) = false \/
   truthy (TINY_CLIENT_SECRET penv) = false ->
   getOAuthConfigFromEnv penv =
     Throw (Error ConfigurationError msg_missing_credentials) /\
   oauthConfig w1 = None /\
   forall fuel cfg,
     request env (S fuel) cfg w1 =
       Some (Throw (Error ConfigurationError msg_no_config), w1) /\
     fs w1 = fs w /\ apiCalls w1 = apiCalls w /\
     tokenCalls w1 = tokenCalls w /\ ticks w1 = ticks w) /\
  (forall id secret,
     TINY_CLIENT_ID penv = Some id -> id <> "" ->
     TINY_CLIENT_SECRET penv = Some secret -> secret <> "" ->
     oauthConfig w1 =
       Some (mkConfig id secret
               (match TINY_REDIRECT_URI penv with
                | Some u => if String.eqb u "" then default_redirectUri else u
                | None => default_redirectUri
                end))).
Proof.
  cbv zeta. split.
  - intros H.
    assert (E : getOAuthConfigFromEnv penv =
                Throw (Error ConfigurationError msg_missing_credentials)).
    { unfold getOAuthConfigFromEnv. cbv zeta.
      destruct H as [H|H]; rewrite H; cbn; rewrite ?orb_true_r; reflexivity. }
    split; [exact E|].
    unfold initializeApiClient. rewrite E. cbn [snd].
    split; [reflexivity|]. intros fuel cfg.
    split; [|repeat split].
    apply request_before_send. rewrite requestInterceptor_run. reflexivity.
  - intros id secret Hi Ni Hs Ns.
    unfold initializeApiClient, getOAuthConfigFromEnv. cbv zeta.
    rewrite Hi, Hs. cbn [truthy].
    destruct (String.eqb_spec id ""); [congruence|].
    destruct (String.eqb_spec secret ""); [congruence|].
    cbn. destruct (TINY_REDIRECT_URI penv) as [u|]; cbn; [|reflexivity].
    unfold or_else. cbn. destruct (String.eqb u ""); reflexivity.
Qed.

Lemma initializeApiClient_credentials_witness :
  let penv := mkProcessEnv (Some "client-id") (Some "") None in
  let w1 := snd (initializeApiClient penv Scenario.world) in
  let penv' := mkProcessEnv (Some "client-id") (Some "client-secret") None in
  request (Scenario.env Scenario.fresh Scenario.serverError) 1
    Scenario.getProducts w1 =
  Some (Throw (Error ConfigurationError msg_no_config), w1) /\
  oauthConfig (snd (initializeApiClient penv' Scenario.world)) =
  Some (mkConfig "client-id" "client-secret" "http://localhost:8080/callback").
Proof.
  intros penv w1 penv'. split.
  - destruct (initializeApiClient_credentials
                (Scenario.env Scenario.fresh Scenario.serverError)
                penv Scenario.world) as [H _].
    destruct H as (_ & _ & H); [right; reflexivity|].
    exact (proj1 (H 0%nat Scenario.getProducts)).
  - destruct (initializeApiClient_credentials
                (Scenario.env Scenario.fresh Scenario.serverError)
                penv' Scenario.world) as [_ H].
    assert (N1 : "client-id" <> "") by discriminate.
    assert (N2 : "client-secret" <> "") by discriminate.
    rewrite (H "client-id" "client-secret" eq_refl N1 eq_refl N2).
    reflexivity.
Defined.

(** X4. [exchangeCodeForTokens] posts the authorization-code grant exactly
    once.  When the endpoint issues a pair, the pair is stored with its
    expiries computed from the clock and returned with them; when the
    endpoint fails, its error reaches the caller unchanged and the store is
    not touched: a pair stored before is still there. *)
Theorem exchangeCodeForTokens_outcomes env (code : string) (c : OAuthConfig)
    (w : World) :
  let form := exchangeForm code c in
  let posted := set_tokenCalls (tokenCalls w ++ [form]) w in
  match tokenEndpoint env (length (tokenCalls w)) form with
  | inr nt =>
      let stored := withExpiry (clock env (ticks w)) nt in
      exchangeCodeForTokens env code c w =
        (Ok stored,
         set_fs (Dir (Some (JsonTokens stored)))
                (set_ticks (S (ticks w)) posted))
  | inl e =>
      exchangeCodeForTokens env code c w = (Throw e, posted) /\
      fs posted = fs w
  end.
Proof.
  cbv zeta. unfold exchangeCodeForTokens, axios_post_token, exchangeForm.
  cbv [bind]. destruct (tokenEndpoint env _ _) as [e|nt].
  - split; reflexivity.
  - rewrite saveTokens_run. reflexivity.
Qed.

(** ** Callback listener *)

Lemma exchangeCodeForTokens_run env code c w :
  exchangeCodeForTokens env code c w =
  let posted := set_tokenCalls (tokenCalls w ++ [exchangeForm code c]) w in
  match tokenEndpoint env (length (tokenCalls w)) (exchangeForm code c) with
  | inl e => (Throw e, posted)
  | inr nt => saveTokens env nt posted
  end.
Proof.
  unfold exchangeCodeForTokens, axios_post_token, exchangeForm. cbv [bind].
  destruct (tokenEndpoint env _ _); reflexivity.
Qed.

Lemma truthy_some v : v <> "" -> truthy (Some v) = true.
Proof. intros H. cbn. destruct (String.eqb_spec v ""); [congruence|reflexivity]. Qed.

(** X5. A callback to [/callback] without an error parameter, with a
    non-empty code and the state of the attempt, posts the authorization-code
    grant exactly once.  When the endpoint issues a pair it is stored, the
    reply is 200, the server is closed and the attempt is resolved with the
    stored pair; when the exchange fails the reply is 500 with the error's
    message, the server is closed, the attempt is rejected with that very
    error, and the store is as it was. *)
Theorem requestListener_exchanges env (config : OAuthConfig) (u : CallbackUrl)
    (l : Login) (w : World) (code : string) :
  pathname u = "/callback" ->
  truthy (searchParams_get "error" (searchParams u)) = false ->
  searchParams_get "code" (searchParams u) = Some code ->
  code <> "" ->
  searchParams_get "state" (searchParams u) = Some (login_state l) ->
  let form := exchangeForm code config in
  let posted := set_tokenCalls (tokenCalls w ++ [form]) w in
  match tokenEndpoint env (length (tokenCalls w)) form with
  | inr nt =>
      let stored := withExpiry (clock env (ticks w)) nt in
      requestListener env config (mkIncoming (Some u)) l w =
        (Ok (resolve stored
               (server_close (respond 200 "Autenticação Concluída!" l))),
         set_fs (Dir (Some (JsonTokens stored)))
                (set_ticks (S (ticks w)) posted))
  | inl e =>
      requestListener env config (mkIncoming (Some u)) l w =
        (Ok (reject e (server_close (respond 500 (message_of e) l))), posted) /\
      fs posted = fs w
  end.
Proof.
  intros Hp He Hc Hn Hs form posted.
  unfold requestListener. cbn [req_url]. rewrite Hp.
  cbn [String.eqb Ascii.eqb Bool.eqb andb]. cbv zeta.
  rewrite He, Hc, Hs, (truthy_some code Hn).
  unfold state_differs. rewrite String.eqb_refl. cbn [negb orb].
  unfold tryCatch, bind. rewrite exchangeCodeForTokens_run. cbv zeta.
  fold form. fold posted.
  destruct (tokenEndpoint env _ form) as [e|nt].
  - split; reflexivity.
  - rewrite saveTokens_run. reflexivity.
Qed.

Lemma requestListener_exchanges_witness :
  let E := Scenario.env Scenario.fresh Scenario.serverError in
  let u := mkUrl "/callback" [("code", "c0de"); ("state", "k3x9q")] in
  exists l' w',
    requestListener E Scenario.config (mkIncoming (Some u))
      Scenario.attempt Scenario.world = (Ok l', w') /\
    promise l' = Resolved (withExpiry Scenario.fresh Scenario.A2R2) /\
    fs w' = Dir (Some (JsonTokens (withExpiry Scenario.fresh Scenario.A2R2))) /\
    tokenCalls w' =
      [[("grant_type", "authorization_code"); ("client_id", "client-id");
        ("client_secret", "client-secret");
        ("redirect_uri", "http://localhost:8080/callback"); ("code", "c0de")]].
Proof.
  intros E u.
  assert (Hp : pathname u = "/callback") by reflexivity.
  assert (He : truthy (searchParams_get "error" (searchParams u)) = false)
    by reflexivity.
  assert (Hc : searchParams_get "code" (searchParams u) = Some "c0de")
    by reflexivity.
  assert (Hn : "c0de" <> "") by discriminate.
  assert (Hs : searchParams_get "state" (searchParams u) =
               Some (login_state Scenario.attempt)) by reflexivity.
  pose proof (requestListener_exchanges E Scenario.config u Scenario.attempt
                Scenario.world "c0de" Hp He Hc Hn Hs) as H.
  cbv zeta in H. cbn [tokenEndpoint E Scenario.env] in H.
  eexists. eexists. split; [exact H|]. split; [|split]; by_computation.
Defined.

(** X6. An error parameter decides the callback before anything else: the
    attempt is rejected with the error's description (or, when that is
    missing or empty, the error code), the reply is 400 and the server is
    closed, even when the code and the state are the right ones.  Nothing is
    posted and the store is not touched. *)
Theorem requestListener_error_parameter env (config : OAuthConfig)
    (u : CallbackUrl) (l : Login) (w : World) (err : string) :
  pathname u = "/callback" ->
  searchParams_get "error" (searchParams u) = Some err ->
  err <> "" ->
  let text :=
    match searchParams_get "error_description" (searchParams u) with
    | Some d => if String.eqb d "" then err else d
    | None => err
    end in
  requestListener env config (mkIncoming (Some u)) l w =
    (Ok (reject (Error AuthExchangeError text)
           (server_close (respond 400 text l))), w).
Proof.
  intros Hp He Hn text.
  unfold requestListener. cbn [req_url]. rewrite Hp.
  cbn [String.eqb Ascii.eqb Bool.eqb andb]. cbv zeta.
  rewrite He, (truthy_some err Hn). subst text. unfold or_else.
  destruct (searchParams_get "error_description" (searchParams u)) as [d|];
    cbn; [|reflexivity].
  destruct (String.eqb d ""); reflexivity.
Qed.

Lemma requestListener_error_parameter_witness :
  let E := Scenario.env Scenario.fresh Scenario.serverError in
  let u := mkUrl "/callback"
             [("code", "c0de"); ("state", "k3x9q"); ("error", "access_denied")] in
  requestListener E Scenario.config (mkIncoming (Some u))
    Scenario.attempt Scenario.world =
  (Ok (reject (Error AuthExchangeError "access_denied")
         (server_close (respond 400 "access_denied" Scenario.attempt))),
   Scenario.world).
Proof.
  intros E u.
  assert (Hn : "access_denied" <> "") by discriminate.
  exact (requestListener_error_parameter E Scenario.config u Scenario.attempt
           Scenario.world "access_denied" eq_refl eq_refl Hn).
Defined.

(** X7. A request without target is answered 400, and a request whose
    target parses to a path other than [/callback] is answered 404.  A target
    the URL library rejects is not answered at all: the listener fails with
    the library's error before it replies.  None of the three settles the
    attempt, closes the server, posts anything or touches the store. *)
Theorem onRequest_other_requests env (URL_new : string -> JsError + CallbackUrl)
    (config : OAuthConfig) (target : option string) (l : Login) (w : World) :
  (forall t url, target = Some t -> URL_new t = inr url ->
                 pathname url <> "/callback") ->
  exists res,
    onRequest env URL_new config target l w = (res, w) /\
    (truthy target = false -> res = Ok (respond 400 "Bad Request" l)) /\
    (forall t url, target = Some t -> t <> "" -> URL_new t = inr url ->
       res = Ok (respond 404 "Not Found" l)) /\
    (forall t err, target = Some t -> t <> "" -> URL_new t = inl err ->
       res = Throw err) /\
    (forall l', res = Ok l' ->
       promise l' = promise l /\ listening l' = listening l /\
       exists reply, replies l' = replies l ++ [reply]).
Proof.
  intros H. unfold onRequest.
  destruct target as [t|]; cbn [truthy negb].
  - destruct (String.eqb_spec t "") as [E|E]; cbn [negb].
    + exists (Ok (respond 400 "Bad Request" l)).
      split; [reflexivity|]. split; [reflexivity|].
      split; [intros t' url [= <-] N; contradiction|].
      split; [intros t' err [= <-] N; contradiction|].
      intros l' [= <-]. repeat split. eexists. reflexivity.
    + destruct (URL_new t) as [err|url] eqn:P.
      * exists (Throw err). split; [reflexivity|].
        split; [discriminate|].
        split; [intros t' url [= <-] _ P'; congruence|].
        split; [intros t' err' [= <-] _ P'; congruence|].
        intros l' [=].
      * exists (Ok (respond 404 "Not Found" l)).
        split.
        { unfold requestListener. cbn [req_url].
          destruct (String.eqb_spec (pathname url) "/callback") as [C|C];
            [exfalso; exact (H t url eq_refl P C)|reflexivity]. }
        split; [discriminate|].
        split; [reflexivity|].
        split; [intros t' err [= <-] _ P'; congruence|].
        intros l' [= <-]. repeat split. eexists. reflexivity.
  - exists (Ok (respond 400 "Bad Request" l)).
    split; [reflexivity|]. split; [reflexivity|].
    split; [discriminate|]. split; [discriminate|].
    intros l' [= <-]. repeat split. eexists. reflexivity.
Qed.

Lemma onRequest_other_requests_witness :
  let E := Scenario.env Scenario.fresh Scenario.serverError in
  let parse := fun t : string => inr (mkUrl t []) : JsError + CallbackUrl in
  onRequest E parse Scenario.config (Some "/favicon.ico") Scenario.attempt
    Scenario.world =
  (Ok (respond 404 "Not Found" Scenario.attempt), Scenario.world) /\
  onRequest E parse Scenario.config (Some "") Scenario.attempt Scenario.world =
  (Ok (respond 400 "Bad Request" Scenario.attempt), Scenario.world).
Proof.
  intros E parse. split.
  - destruct (onRequest_other_requests E parse Scenario.config
                (Some "/favicon.ico") Scenario.attempt Scenario.world)
      as (res & H1 & _ & H3 & _).
    + intros t url [= <-] [= <-]. cbn. discriminate.
    + rewrite H1. f_equal. apply (H3 "/favicon.ico" (mkUrl "/favicon.ico" []));
        [reflexivity|discriminate|reflexivity].
  - destruct (onRequest_other_requests E parse Scenario.config
                (Some "") Scenario.attempt Scenario.world)
      as (res & H1 & H2 & _).
    + intros t url [= <-] [= <-]. cbn. discriminate.
    + rewrite H1. f_equal. apply H2. reflexivity.
Defined.

(** ** getValidAccessToken and the pipeline *)

(** X9. [getValidAccessToken] fails in three ways only: not authenticated,
    session expired, refresh failed.  An error of the token endpoint never
    escapes it.  After any failure the next call fails as not authenticated
    without posting to the token endpoint or reading the clock: only a new
    login makes it succeed again. *)
Theorem getValidAccessToken_failures env (c : OAuthConfig) (w w' : World)
    (e : JsError) :
  getValidAccessToken env c w = (Throw e, w') ->
  (e = Error NotAuthenticatedError msg_not_authenticated \/
   e = Error SessionExpiredError msg_session_expired \/
   e = Error SessionExpiredError msg_refresh_failed) /\
  exists w'',
    getValidAccessToken env c w' =
      (Throw (Error NotAuthenticatedError msg_not_authenticated), w'') /\
    tokenCalls w'' = tokenCalls w' /\ ticks w'' = ticks w'.
Proof.
  intros H.
  assert (G : (e = Error NotAuthenticatedError msg_not_authenticated \/
               e = Error SessionExpiredError msg_session_expired \/
               e = Error SessionExpiredError msg_refresh_failed) /\
              fst (loadTokens w') = Ok None).
  { assert (D : (exists t, fs w = Dir (Some (JsonTokens t))) \/
                (forall t, fs w <> Dir (Some (JsonTokens t)))).
    { destruct (fs w) as [|[[t| |]|]]; try (right; intros; discriminate).
      left. exists t. reflexivity. }
    destruct D as [[t Hfs]|Hno].
    - destruct (isRefreshTokenExpired_frame env t w) as (b1 & n1 & E1).
      destruct b1.
      + destruct (session_expired_run env c t w Hfs) as (w1 & Hrun & Hfs1);
          [rewrite E1; reflexivity|].
        rewrite Hrun in H. injection H as <- <-. split; [auto|].
        rewrite loadTokens_empty; [reflexivity|exact Hfs1].
      + destruct (isAccessTokenExpired_frame env t (set_ticks n1 w))
          as (b2 & n2 & E2).
        destruct b2.
        * pose proof (getValidAccessToken_refresh_run env c t w _ _ Hfs E1 E2)
            as Hrun. cbv zeta in Hrun. rewrite Hrun in H.
          destruct (tokenEndpoint env _ _) as [e0|nt]; [|discriminate].
          injection H as <- <-. split; [auto|].
          rewrite loadTokens_empty; reflexivity.
        * unfold getValidAccessToken in H. unfold bind at 1 in H.
          rewrite (loadTokens_stored w t Hfs) in H. unfold bind at 1 in H.
          rewrite E1 in H. unfold bind at 1 in H. rewrite E2 in H.
          discriminate.
    - destruct (without_pair_run env c w Hno) as [E L].
      rewrite E in H. injection H as <- <-. split; [auto|].
      apply loadTokens_without_pair. exact Hno. }
  destruct G as [G1 G2]. split; [exact G1|].
  assert (Hno : forall t, fs w' <> Dir (Some (JsonTokens t))).
  { intros t Hfs. rewrite (loadTokens_stored w' t Hfs) in G2. discriminate G2. }
  destruct (without_pair_run env c w' Hno) as [Hrun _]. cbv zeta in Hrun.
  eexists. split; [exact Hrun|]. split; reflexivity.
Qed.

Lemma getValidAccessToken_failures_witness :
  let E := Scenario.env Scenario.late Scenario.serverError in
  let r := getValidAccessToken E Scenario.config Scenario.world in
  fst r = Throw (Error SessionExpiredError msg_session_expired) /\
  exists w'',
    getValidAccessToken E Scenario.config (snd r) =
      (Throw (Error NotAuthenticatedError msg_not_authenticated), w'') /\
    tokenCalls w'' = [].
Proof.
  intros E r.
  assert (H : getValidAccessToken E Scenario.config Scenario.world =
              (Throw (Error SessionExpiredError msg_session_expired), snd r))
    by by_computation.
  destruct (getValidAccessToken_failures E Scenario.config Scenario.world
              (snd r) _ H) as (_ & w'' & H1 & H2 & _).
  split; [by_computation|].
  exists w''. split; [exact H1|]. rewrite H2. by_computation.
Defined.

Lemma sent_for_interceptor env cfg w cfg1 w1 :
  requestInterceptor env cfg w = (Ok cfg1, w1) -> sent_for cfg cfg1.
Proof.
  intros H. destruct (requestInterceptor_ok env cfg w cfg1 w1 H)
    as (oc & tok & _ & _ & ->).
  repeat split. exists tok. reflexivity.
Qed.

(** X10. Whatever the pipeline sends for a request is that request with a
    bearer header: every entry it adds to the log of API calls has the
    caller's method, URL and body and an [Authorization] of the form
    [Bearer <token>], and it adds at most two.  Nothing goes out without a
    token. *)
Theorem request_sends_with_bearer env (fuel : nat) (cfg : RequestConfig)
    (w w' : World) (res : Result Response) :
  request env fuel cfg w = Some (res, w') ->
  exists sent,
    apiCalls w' = apiCalls w ++ sent /\
    (length sent <= 2)%nat /\
    Forall (sent_for cfg) sent.
Proof.
  destruct fuel as [|f]; [discriminate|].
  destruct (requestInterceptor env cfg w) as [[cfg1|e] w1] eqn:E.
  - pose proof (sent_for_interceptor env cfg w cfg1 w1 E) as S1.
    destruct (requestInterceptor_retry env cfg w cfg1 w1 E)
      as (R1 & _ & _ & _ & K1 & K2).
    destruct (requestInterceptor_ok env cfg w cfg1 w1 E) as (oc & tok & C & _ & _).
    rewrite (request_sent env f cfg w cfg1 w1 E). cbv zeta.
    destruct (is401 _ && negb (_retry cfg1)) eqn:T.
    + apply andb_prop in T. destruct T as [T1 T2]. apply negb_true_iff in T2.
      rewrite (responseRejected_first401 env _ cfg1 _ oc _ T1 T2)
        by (cbn; congruence).
      set (w2 := set_apiCalls (apiCalls w1 ++ [cfg1]) w1).
      pose proof (keeps_getValidAccessToken env oc w2) as [G1 _].
      destruct (getValidAccessToken env oc w2) as [[tok2|e2] w3]; cbn in G1.
      * destruct f as [|f']; [discriminate|].
        rewrite request_retried_run by reflexivity.
        set (cfg' := set_Authorization (Bearer tok2) (set_retry true cfg1)).
        pose proof (keeps_requestInterceptor env cfg' w3) as [G2 _].
        destruct (requestInterceptor env cfg' w3) as [[cfg2|e2] w4] eqn:E2;
          cbn in G2; intros [= <- <-].
        -- exists [cfg1; cfg2]. split.
           { cbn. rewrite G2, G1, K1, <- app_assoc. reflexivity. }
           split; [cbn; lia|].
           constructor; [exact S1|]. constructor; [|constructor].
           destruct (sent_for_interceptor env cfg' w3 cfg2 w4 E2)
             as (M2 & U2 & P2 & A2).
           destruct S1 as (M1 & U1 & P1 & _).
           repeat split; [cbn in *; congruence ..|exact A2].
        -- exists [cfg1]. split; [rewrite G2, G1, K1; reflexivity|].
           split; [cbn; lia|]. constructor; [exact S1|constructor].
      * intros [= <- <-]. exists [cfg1].
        split; [rewrite G1, K1; reflexivity|].
        split; [cbn; lia|]. constructor; [exact S1|constructor].
    + intros [= <- <-]. exists [cfg1].
      split; [cbn; rewrite K1; reflexivity|].
      split; [cbn; lia|]. constructor; [exact S1|constructor].
  - rewrite (request_before_send env f cfg w e w1 E). intros [= <- <-].
    pose proof (keeps_requestInterceptor env cfg w) as [K _]. rewrite E in K.
    exists []. split; [cbn in K; rewrite K, app_nil_r; reflexivity|].
    split; [cbn; lia|constructor].
Qed.

Lemma request_sends_with_bearer_witness :
  let E := Scenario.env Scenario.fresh Scenario.unauthorized in
  exists res w' sent,
    request E 2 Scenario.getProducts Scenario.world = Some (res, w') /\
    apiCalls w' = apiCalls Scenario.world ++ sent /\
    Forall (sent_for Scenario.getProducts) sent /\
    apiCalls w' = [mkRequest "get" "/produtos" "" (Some "Bearer A1") false;
                   mkRequest "get" "/produtos" "" (Some "Bearer A1") true].
Proof.
  intros E.
  destruct (request E 2 Scenario.getProducts Scenario.world)
    as [[res w']|] eqn:R; [|vm_compute in R; discriminate R].
  destruct (request_sends_with_bearer E 2 Scenario.getProducts Scenario.world
              w' res R) as (sent & H1 & _ & H3).
  exists res, w', sent. split; [reflexivity|]. split; [exact H1|].
  split; [exact H3|].
  vm_compute in R. injection R as _ <-. reflexivity.
Defined.

(** X11. A call of [apiGet], [apiPost], [apiPut] or [apiDelete] whose first
    answer is a 401 and whose retried request is answered with a 2xx returns
    the body of that second response; the request went out exactly twice. *)
Theorem apiCall_retry_succeeds env (fuel : nat) (m endpoint body : string)
    (oc : OAuthConfig) (cfg1 cfg2 : RequestConfig) (w w1 w3 w4 : World)
    (accessToken : string) (r2 : Response) :
  let cfg := mkRequest m endpoint body None false in
  oauthConfig w = Some oc ->
  requestInterceptor env cfg w = (Ok cfg1, w1) ->
  is401 (apiServer env (length (apiCalls w1)) cfg1) = true ->
  getValidAccessToken env oc (set_apiCalls (apiCalls w1 ++ [cfg1]) w1) =
    (Ok accessToken, w3) ->
  requestInterceptor env
    (set_Authorization (Bearer accessToken) (set_retry true cfg1)) w3 =
    (Ok cfg2, w4) ->
  apiServer env (length (apiCalls w4)) cfg2 = Http r2 ->
  is2xx (Http r2) = true ->
  let w5 := set_apiCalls (apiCalls w4 ++ [cfg2]) w4 in
  apiCall env (S (S fuel)) m endpoint body w = Some (Ok (data r2), w5) /\
  apiCalls w5 = apiCalls w ++ [cfg1; cfg2].
Proof.
  intros cfg C E T G E2 A2 S2 w5.
  destruct (requestInterceptor_retry env cfg w cfg1 w1 E)
    as (R1 & _ & _ & _ & K1 & K2).
  assert (Hrun : request env (S (S fuel)) cfg w = Some (Ok r2, w5)).
  { assert (R1' : _retry cfg1 = false) by (rewrite R1; reflexivity).
    assert (C2 : oauthConfig (set_apiCalls (apiCalls w1 ++ [cfg1]) w1) = Some oc)
      by (cbn; congruence).
    rewrite (request_sent env (S fuel) cfg w cfg1 w1 E). cbv zeta.
    rewrite T, R1'. cbn [andb negb].
    rewrite (responseRejected_first401 env _ cfg1 _ oc _ T R1' C2).
    rewrite G, request_retried_run by reflexivity.
    rewrite E2, A2. cbn [settle]. rewrite S2. reflexivity. }
  split.
  - unfold apiCall. fold cfg. rewrite Hrun. reflexivity.
  - subst w5. cbn.
    pose proof (keeps_requestInterceptor env
                  (set_Authorization (Bearer accessToken) (set_retry true cfg1))
                  w3) as [K3 _].
    rewrite E2 in K3. cbn in K3.
    pose proof (keeps_getValidAccessToken env oc
                  (set_apiCalls (apiCalls w1 ++ [cfg1]) w1)) as [K4 _].
    rewrite G in K4. cbn in K4.
    rewrite K3, K4, K1, <- app_assoc. reflexivity.
Qed.

Lemma apiCall_retry_succeeds_witness :
  exists w5,
    apiGet rejects_once 2 "/produtos" "" Scenario.world =
      Some (Ok (Some (mkData None None None "{}")), w5) /\
    length (apiCalls w5) = 2%nat.
Proof.
  set (first := set_Authorization (Bearer "A1") Scenario.getProducts).
  set (second := set_Authorization (Bearer "A1") (set_retry true first)).
  assert (C : oauthConfig Scenario.world = Some Scenario.config) by reflexivity.
  assert (E : requestInterceptor rejects_once
                (mkRequest "get" "/produtos" "" None false) Scenario.world =
              (Ok first, set_ticks 2 Scenario.world)) by by_computation.
  assert (T : is401 (apiServer rejects_once
                       (length (apiCalls (set_ticks 2 Scenario.world))) first)
              = true) by by_computation.
  assert (G : getValidAccessToken rejects_once Scenario.config
                (set_apiCalls (apiCalls (set_ticks 2 Scenario.world) ++ [first])
                   (set_ticks 2 Scenario.world)) =
              (Ok "A1", set_apiCalls [first] (set_ticks 4 Scenario.world)))
    by by_computation.
  assert (E2 : requestInterceptor rejects_once
                 (set_Authorization (Bearer "A1") (set_retry true first))
                 (set_apiCalls [first] (set_ticks 4 Scenario.world)) =
               (Ok second, set_apiCalls [first] (set_ticks 6 Scenario.world)))
    by by_computation.
  assert (A2 : apiServer rejects_once
                 (length (apiCalls (set_apiCalls [first]
                                      (set_ticks 6 Scenario.world)))) second =
               Http (mkResponse 200 (Some (mkData None None None "{}"))))
    by by_computation.
  assert (S2 : is2xx (Http (mkResponse 200 (Some (mkData None None None "{}"))))
               = true) by by_computation.
  destruct (apiCall_retry_succeeds rejects_once 0 "get" "/produtos" ""
              Scenario.config first second Scenario.world _ _ _ "A1" _
              C E T G E2 A2 S2) as [H1 H2].
  eexists. split; [exact H1|]. rewrite H2. reflexivity.
Defined.

(** X12. A request made while the stored access token is inside the
    five-minute buffer (and the refresh token still valid) refreshes first:
    the refresh grant is posted once, the new pair is stored, and the request
    goes out with the new access token.  The expired token is not sent.
    When the refresh fails, nothing is sent to the API, the store is cleared
    and the caller gets the refresh failure. *)
Theorem request_refreshes_before_sending env (fuel : nat) (oc : OAuthConfig)
    (cfg : RequestConfig) (t : OAuthTokens) (w w1 w2 : World) :
  oauthConfig w = Some oc ->
  fs w = Dir (Some (JsonTokens t)) ->
  isRefreshTokenExpired env t w = (Ok false, w1) ->
  isAccessTokenExpired env t w1 = (Ok true, w2) ->
  let form := refreshForm (refresh_token t) oc in
  match tokenEndpoint env (length (tokenCalls w)) form with
  | inr nt =>
      let sent := set_Authorization (Bearer (access_token nt)) cfg in
      exists w3,
        requestInterceptor env cfg w = (Ok sent, w3) /\
        tokenCalls w3 = tokenCalls w ++ [form] /\
        fs w3 = Dir (Some (JsonTokens (withExpiry (clock env (ticks w2)) nt))) /\
        apiCalls w3 = apiCalls w /\
        (is401 (apiServer env (length (apiCalls w3)) sent) = false ->
         request env (S fuel) cfg w =
           Some (settle sent (apiServer env (length (apiCalls w3)) sent),
                 set_apiCalls (apiCalls w3 ++ [sent]) w3))
  | inl _ =>
      exists w3,
        request env (S fuel) cfg w =
          Some (Throw (Error SessionExpiredError msg_refresh_failed), w3) /\
        apiCalls w3 = apiCalls w /\
        tokenCalls w3 = tokenCalls w ++ [form] /\
        fs w3 = Dir None
  end.
Proof.
  intros C Hfs Hr Ha form.
  pose proof (getValidAccessToken_refresh_run env oc t w w1 w2 Hfs Hr Ha) as Hrun.
  cbv zeta in Hrun. fold form in Hrun.
  pose proof (keeps_getValidAccessToken env oc w) as [K _].
  destruct (tokenEndpoint env _ form) as [e|nt].
  - eexists. split.
    + apply request_before_send.
      rewrite requestInterceptor_run, C, Hrun. reflexivity.
    + rewrite Hrun in K. cbn in K. split; [exact K|]. split; [|reflexivity].
      destruct (isRefreshTokenExpired_frame env t w) as (b1 & n1 & E1).
      destruct (isAccessTokenExpired_frame env t w1) as (b2 & n2 & E2).
      rewrite Hr in E1. rewrite Ha in E2.
      injection E1 as _ ->. injection E2 as _ ->. reflexivity.
  - cbv zeta. eexists.
    assert (Hi : requestInterceptor env cfg w =
                 (Ok (set_Authorization (Bearer (access_token nt)) cfg),
                  set_fs (Dir (Some (JsonTokens
                                       (withExpiry (clock env (ticks w2)) nt))))
                    (set_ticks (S (ticks w2))
                       (set_tokenCalls (tokenCalls w ++ [form]) w2)))).
    { rewrite requestInterceptor_run, C, Hrun. reflexivity. }
    split; [exact Hi|]. split.
    { destruct (isRefreshTokenExpired_frame env t w) as (b1 & n1 & E1).
      destruct (isAccessTokenExpired_frame env t w1) as (b2 & n2 & E2).
      rewrite Hr in E1. rewrite Ha in E2.
      injection E1 as _ ->. injection E2 as _ ->. reflexivity. }
    split; [reflexivity|].
    split; [rewrite Hrun in K; cbn in K; exact K|].
    intros T.
    rewrite (request_sent env fuel cfg w _ _ Hi). cbv zeta.
    rewrite T. reflexivity.
Qed.

Lemma request_refreshes_before_sending_witness :
  let E := Scenario.env Scenario.inBuffer Scenario.serverError in
  exists w3,
    requestInterceptor E Scenario.getProducts Scenario.world =
      (Ok (mkRequest "get" "/produtos" "" (Some "Bearer A2") false), w3) /\
    tokenCalls w3 =
      [[("grant_type", "refresh_token"); ("client_id", "client-id");
        ("client_secret", "client-secret"); ("refresh_token", "R1")]].
Proof.
  intros E.
  assert (C : oauthConfig Scenario.world = Some Scenario.config) by reflexivity.
  assert (Hfs : fs Scenario.world = Dir (Some (JsonTokens Scenario.A1R1)))
    by reflexivity.
  assert (Hr : isRefreshTokenExpired E Scenario.A1R1 Scenario.world =
               (Ok false, set_ticks 1 Scenario.world)) by by_computation.
  assert (Ha : isAccessTokenExpired E Scenario.A1R1 (set_ticks 1 Scenario.world) =
               (Ok true, set_ticks 2 Scenario.world)) by by_computation.
  pose proof (request_refreshes_before_sending E 0 Scenario.config
                Scenario.getProducts Scenario.A1R1 Scenario.world _ _
                C Hfs Hr Ha) as H.
  cbv zeta in H. cbn [tokenEndpoint E Scenario.env] in H.
  destruct H as (w3 & H1 & H2 & _).
  exists w3. split; [exact H1|]. rewrite H2. by_computation.
Defined.

(** ** handleApiError *)

Lemma prefix_nil m : String.prefix "" m = true.
Proof. destruct m; reflexivity. Qed.

Ltac marked := first [reflexivity | cbn; apply prefix_nil].

Lemma handleApiError_marked (e : JsError) :
  String.prefix "❌ " (handleApiError e) = true.
Proof.
  destruct e as [cls m|m code cfg [r|]]; unfold handleApiError.
  - marked.
  - destruct (includes _ m || includes _ m); [marked|]. cbv zeta.
    repeat match goal with
           | |- context [if ?b then _ else _] => destruct b
           end; marked.
  - destruct (includes _ m || includes _ m); [marked|].
    destruct code as [c|]; [|marked].
    repeat match goal with
           | |- context [if ?b then _ else _] => destruct b
           end; marked.
Qed.

Lemma lacks_append c a b : lacks c (a ++ b) = lacks c a && lacks c b.
Proof.
  induction a as [|h a IH]; cbn; [reflexivity|].
  rewrite IH, andb_assoc. reflexivity.
Qed.

Lemma lacks_prefix c rest hay :
  lacks c hay = true -> String.prefix (String c rest) hay = false.
Proof.
  destruct hay as [|h hay]; cbn; [reflexivity|].
  intros H. apply andb_prop in H. destruct H as [H _].
  apply negb_true_iff in H. apply Ascii.eqb_neq in H.
  destruct (ascii_dec c h); [contradiction|reflexivity].
Qed.

Lemma lacks_includes c rest hay :
  lacks c hay = true -> includes (String c rest) hay = false.
Proof.
  induction hay as [|h hay IH]; intros H.
  - reflexivity.
  - cbn [includes]. rewrite (lacks_prefix c rest _ H).
    cbn in H. apply andb_prop in H. destruct H as [_ H]. apply IH. exact H.
Qed.

Lemma lacks_uint c d :
  lacks c "0123456789" = true ->
  lacks c (NilEmpty.string_of_uint d) = true.
Proof.
  intros H. cbn in H.
  repeat (apply andb_prop in H; destruct H as [? H]).
  induction d; cbn; rewrite ?IHd, ?andb_true_r; auto.
Qed.

Lemma lacks_string_of_Z c z :
  lacks c "-0123456789" = true -> lacks c (string_of_Z z) = true.
Proof.
  intros H. cbn [lacks] in H. apply andb_prop in H. destruct H as [Hm Hd].
  unfold string_of_Z, NilZero.string_of_int, NilZero.string_of_uint.
  pose proof (lacks_uint c) as U.
  assert (H0 : lacks c "0" = true).
  { cbn in Hd. apply andb_prop in Hd. destruct Hd as [Hd _]. cbn.
    rewrite Hd. reflexivity. }
  destruct (Z.to_int z) as [d|d].
  - destruct d; try (apply U; exact Hd). exact H0.
  - cbn [lacks]. rewrite Hm. cbn [andb].
    destruct d; try (apply U; exact Hd). exact H0.
Qed.

(** The message of a status error of the transport never looks like one of
    the two authentication messages. *)
Lemma status_message_plain z :
  let m := ("Request failed with status code " ++ string_of_Z z)%string in
  includes "Sessão expirada" m = false /\ includes "Não autenticado" m = false.
Proof.
  cbv zeta. split; apply lacks_includes; rewrite lacks_append;
    rewrite lacks_string_of_Z by reflexivity; reflexivity.
Qed.

(** X13. Every text [handleApiError] returns starts with the cross mark
    ["❌ "], whatever the error; the errors of [getValidAccessToken] and the
    configuration error, which are plain [Error]s, are shown with their own
    message after it. *)
Theorem handleApiError_always_marked (e : JsError) :
  String.prefix "❌ " (handleApiError e) = true /\
  (forall cls m, e = Error cls m -> handleApiError e = ("❌ " ++ m)%string).
Proof.
  split; [apply handleApiError_marked|].
  intros cls m ->. reflexivity.
Qed.

(** X14. For a response whose status is none of 400, 401, 403, 404, 429, 500
    and 503, the text is ["❌ Erro <status>: <message>"] with the message
    extracted from the body; the shortcut for authentication messages never
    applies to a status error built by the transport, whatever the status. *)
Theorem handleApiError_other_status (cfg : RequestConfig) (r : Response) :
  ~ In (status r) [400; 401; 403; 404; 429; 500; 503] ->
  handleApiError (transportError cfg (Http r)) =
  ("❌ Erro " ++ string_of_Z (status r) ++ ": " ++ errorMsg_of (data r))%string.
Proof.
  intros H. unfold transportError, handleApiError.
  destruct (status_message_plain (status r)) as [H1 H2]. cbv zeta in H1, H2.
  rewrite H1, H2. cbn [orb].
  repeat match goal with
         | |- context [if (?a =? ?b) then _ else _] =>
             destruct (Z.eqb_spec a b) as [E|_];
             [exfalso; apply H; rewrite E; cbn; tauto|]
         end.
  reflexivity.
Qed.

Lemma handleApiError_other_status_witness :
  handleApiError
    (transportError Scenario.getProducts
       (Http (mkResponse 502 (Some (mkData None (Some "bad gateway") None "{}")))))
  = "❌ Erro 502: bad gateway".
Proof.
  assert (H : ~ In (status (mkResponse 502
                              (Some (mkData None (Some "bad gateway") None "{}"))))
                [400; 401; 403; 404; 429; 500; 503])
    by (cbn; intros [H|[H|[H|[H|[H|[H|[H|[]]]]]]]]; discriminate H).
  rewrite (handleApiError_other_status Scenario.getProducts _ H).
  by_computation.
Defined.

(** ** Command line and startup check *)

Lemma loadTokens_run w :
  loadTokens w =
  (Ok (match fs w with
       | Dir (Some (JsonTokens t)) => Some t
       | _ => None
       end),
   set_fs (after_read (fs w)) w).
Proof.
  unfold loadTokens, getTokenFilePath. run.
  destruct (fs w) as [|[[t| |]|]] eqn:E; cbn; rewrite ?E;
    try (rewrite (set_fs_same _ w E)); reflexivity.
Qed.

(** X15. [logout] never fails and contacts nobody.  With a stored pair it
    deletes the file and reports the removal; without a readable pair it
    reports that the user is already logged out and deletes nothing, so an
    unreadable file stays on disk.  Either way [loadTokens] returns absent
    afterwards. *)
Theorem logout_outcome (w : World) :
  exists lines w',
    logout w = (Ok lines, w') /\
    fst (loadTokens w') = Ok None /\
    tokenCalls w' = tokenCalls w /\ apiCalls w' = apiCalls w /\
    ((exists t, fs w = Dir (Some (JsonTokens t))) ->
     fs w' = Dir None /\ In "✅ Tokens removidos com sucesso." lines) /\
    ((forall t, fs w <> Dir (Some (JsonTokens t))) ->
     fs w' = after_read (fs w) /\ In "Você já está deslogado." lines).
Proof.
  unfold logout. cbv [bind ret]. rewrite loadTokens_run.
  destruct (fs w) as [|[[t| |]|]] eqn:E; cbn [after_read].
  all: try (eexists; eexists; split; [reflexivity|];
            rewrite loadTokens_run; cbn;
            split; [reflexivity|];
            split; [reflexivity|]; split; [reflexivity|];
            split; [intros [t [=]]|];
            intros _; split; [reflexivity|]; auto 10).
  erewrite clearTokens_stored by (cbn; reflexivity).
  eexists; eexists; split; [reflexivity|].
  rewrite loadTokens_run. cbn.
  split; [reflexivity|].
  split; [reflexivity|]. split; [reflexivity|].
  split; [intros _; split; [reflexivity|]; auto 10|].
  intros H. exfalso. apply (H t). reflexivity.
Qed.

Lemma checkStatus_run env w t :
  fs w = Dir (Some (JsonTokens t)) ->
  exists b1 n1 b2 n2 lines,
    isAccessTokenExpired env t (set_ticks (S (ticks w)) w) =
      (Ok b1, set_ticks n1 w) /\
    isRefreshTokenExpired env t (set_ticks n1 w) = (Ok b2, set_ticks n2 w) /\
    checkStatus env w = (Ok lines, set_ticks n2 w) /\
    (b1 = false ->
     In ("✅ Access token válido por: "
         ++ string_of_Z
              (Math_round_div
                 (match access_token_expires_at t with Some e => e | None => 0 end
                  - clock env (ticks w)) 60000)
         ++ " minutos")%string lines).
Proof.
  intros Hfs.
  destruct (isAccessTokenExpired_frame env t (set_ticks (S (ticks w)) w))
    as (b1 & n1 & E1).
  destruct (isRefreshTokenExpired_frame env t (set_ticks n1 w))
    as (b2 & n2 & E2).
  cbn [set_ticks ticks fs oauthConfig tokenCalls apiCalls] in E1, E2.
  assert (F1 : set_ticks n1 (set_ticks (S (ticks w)) w) = set_ticks n1 w)
    by reflexivity.
  assert (F2 : set_ticks n2 (set_ticks n1 w) = set_ticks n2 w) by reflexivity.
  rewrite F1 in E1. rewrite F2 in E2.
  exists b1, n1, b2, n2. eexists.
  split; [exact E1|]. split; [exact E2|].
  unfold checkStatus. cbv [bind ret].
  rewrite (loadTokens_stored w t Hfs). unfold Date_now at 1.
  rewrite E1, E2.
  split; [reflexivity|].
  intros ->. cbn. right. right. left. reflexivity.
Qed.

(** X16. [checkStatus] only reads: it never fails, posts nothing, and leaves
    the stored file as it is even when the refresh token is expired (only a
    missing directory is created).  After it, [loadTokens] returns what it
    returned before. *)
Theorem checkStatus_read_only env (w : World) :
  exists lines w',
    checkStatus env w = (Ok lines, w') /\
    fs w' = after_read (fs w) /\
    tokenCalls w' = tokenCalls w /\ apiCalls w' = apiCalls w /\
    fst (loadTokens w') = fst (loadTokens w).
Proof.
  destruct (fs w) as [|[[t| |]|]] eqn:E.
  2: { destruct (checkStatus_run env w t E)
         as (b1 & n1 & b2 & n2 & lines & _ & _ & H & _).
       exists lines, (set_ticks n2 w). split; [exact H|].
       rewrite !loadTokens_run. cbn. repeat split. exact E. }
  all: unfold checkStatus; cbv [bind ret];
    rewrite loadTokens_run, E; cbn [after_read];
    eexists; eexists; (split; [reflexivity|]);
    rewrite ?loadTokens_run; cbn; rewrite ?E; repeat split.
Qed.

(** X17. When [checkStatus] reports the access token as valid, the minutes it
    prints are at least five, provided the clock did not go back between its
    two readings: a token inside the five-minute buffer is always reported as
    expired. *)
Theorem checkStatus_valid_minutes env (w w2 : World) (t : OAuthTokens) :
  fs w = Dir (Some (JsonTokens t)) ->
  clock env (ticks w) <= clock env (S (ticks w)) ->
  isAccessTokenExpired env t (set_ticks (S (ticks w)) w) = (Ok false, w2) ->
  exists lines w' minutes,
    checkStatus env w = (Ok lines, w') /\
    In ("✅ Access token válido por: " ++ string_of_Z minutes ++ " minutos")%string
       lines /\
    5 <= minutes.
Proof.
  intros Hfs Hclock Ha.
  destruct (checkStatus_run env w t Hfs)
    as (b1 & n1 & b2 & n2 & lines & E1 & _ & H & L).
  rewrite Ha in E1. injection E1 as <- _.
  exists lines, (set_ticks n2 w). eexists.
  split; [exact H|]. split; [apply L; reflexivity|].
  rewrite isAccessTokenExpired_run in Ha. cbn [ticks set_ticks] in Ha.
  destruct (access_token_expires_at t) as [e|]; [|discriminate].
  destruct (e =? 0); [discriminate|].
  injection Ha as Ha _. unfold bufferTime in Ha.
  rewrite Z.geb_leb in Ha. apply Z.leb_gt in Ha.
  unfold Math_round_div. apply Z.div_le_lower_bound; lia.
Qed.

Lemma checkStatus_valid_minutes_witness :
  let E := Scenario.env Scenario.fresh Scenario.serverError in
  exists lines w',
    checkStatus E Scenario.world = (Ok lines, w') /\
    In "✅ Access token válido por: 240 minutos" lines.
Proof.
  intros E.
  assert (Hfs : fs Scenario.world = Dir (Some (JsonTokens Scenario.A1R1)))
    by reflexivity.
  assert (Hc : clock E (ticks Scenario.world) <= clock E (S (ticks Scenario.world)))
    by by_computation.
  assert (Ha : isAccessTokenExpired E Scenario.A1R1
                 (set_ticks (S (ticks Scenario.world)) Scenario.world) =
               (Ok false, set_ticks 2 Scenario.world)) by by_computation.
  destruct (checkStatus_valid_minutes E Scenario.world _ Scenario.A1R1 Hfs Hc Ha)
    as (lines & w' & minutes & H1 & _ & _).
  exists lines, w'. split; [exact H1|].
  assert (Hl : exists l0 w0, checkStatus E Scenario.world = (Ok l0, w0) /\
                 In "✅ Access token válido por: 240 minutos" l0).
  { eexists. eexists. split; [by_computation|]. cbn. auto 10. }
  destruct Hl as (l0 & w0 & H2 & H3). rewrite H1 in H2.
  injection H2 as -> _. exact H3.
Defined.

(** X18. The startup check [checkAuthStatus] only warns: it never fails,
    posts nothing and deletes nothing.  With a stored pair whose refresh
    token is expired it prints the expired-session warning and the record is
    still there afterwards, so that [isAuthenticated] still answers true. *)
Theorem checkAuthStatus_only_warns env (penv : ProcessEnv) (w : World) :
  exists lines w',
    checkAuthStatus env penv w = (Ok lines, w') /\
    fs w' = after_read (fs w) /\
    tokenCalls w' = tokenCalls w /\ apiCalls w' = apiCalls w /\
    (forall t,
       fs w = Dir (Some (JsonTokens t)) ->
       fst (isRefreshTokenExpired env t w) = Ok true ->
       In "⚠️  Sessão expirada." lines /\
       fst (isAuthenticated w') = Ok true).
Proof.
  unfold checkAuthStatus. cbv [bind ret]. rewrite loadTokens_run.
  destruct (fs w) as [|[[t| |]|]] eqn:E; cbn [after_read].
  2: { rewrite (set_fs_same _ w E).
       destruct (isRefreshTokenExpired_frame env t w) as (b & n & Er).
       rewrite Er.
       destruct b; eexists; eexists; (split; [reflexivity|]); cbn;
         rewrite E; (split; [reflexivity|]); (split; [reflexivity|]);
         (split; [reflexivity|]); intros t' [= <-] Hr.
       - split; [apply in_or_app; right; cbn; auto 10|].
         rewrite isAuthenticated_run, loadTokens_run. cbn. rewrite E. reflexivity.
       - rewrite Er in Hr. discriminate Hr. }
  all: eexists; eexists; (split; [reflexivity|]); cbn;
    (split; [reflexivity|]); (split; [reflexivity|]); (split; [reflexivity|]);
    intros t' [=].
Qed.

Lemma checkAuthStatus_only_warns_witness :
  let E := Scenario.env Scenario.late Scenario.serverError in
  let penv := mkProcessEnv (Some "client-id") (Some "client-secret") None in
  exists lines w',
    checkAuthStatus E penv Scenario.world = (Ok lines, w') /\
    In "⚠️  Sessão expirada." lines /\
    fst (isAuthenticated w') = Ok true.
Proof.
  intros E penv.
  destruct (checkAuthStatus_only_warns E penv Scenario.world)
    as (lines & w' & H1 & _ & _ & _ & H5).
  exists lines, w'. split; [exact H1|].
  apply (H5 Scenario.A1R1); by_computation.
Defined.

(** ** A tool handler *)

(** X20. Without a stored pair the tool answers with the text that asks the
    user to log in, and the request is not sent. *)
Theorem tiny_update_contact_not_authenticated env (fuel : nat) (idContato : Z)
    (data : string) (oc : OAuthConfig) (w : World) :
  oauthConfig w = Some oc ->
  (forall t, fs w <> Dir (Some (JsonTokens t))) ->
  exists w',
    tiny_update_contact env (S fuel) idContato data w =
      Some (Ok (mkToolResult
                  "❌ Não autenticado. Execute 'tiny-mcp-auth' para fazer login OAuth."
                  None), w') /\
    apiCalls w' = apiCalls w /\ tokenCalls w' = tokenCalls w.
Proof.
  intros C H.
  destruct (without_pair_run env oc w H) as [G _]. cbv zeta in G.
  unfold tiny_update_contact, apiPut, apiCall.
  rewrite (request_stopped env fuel _ oc w _ _ C G).
  eexists. split; [reflexivity|]. split; reflexivity.
Qed.

Lemma tiny_update_contact_not_authenticated_witness :
  let E := Scenario.env Scenario.fresh Scenario.serverError in
  let w := set_fs (Dir None) Scenario.world in
  exists w',
    tiny_update_contact E 1 42 "{}" w =
    Some (Ok (mkToolResult
                "❌ Não autenticado. Execute 'tiny-mcp-auth' para fazer login OAuth."
                None), w') /\
    apiCalls w' = [].
Proof.
  intros E w.
  assert (C : oauthConfig w = Some Scenario.config) by reflexivity.
  assert (H : forall t, fs w <> Dir (Some (JsonTokens t)))
    by (intros t; cbn; discriminate).
  destruct (tiny_update_contact_not_authenticated E 0 42 "{}" Scenario.config
              w C H) as (w' & H1 & H2 & _).
  exists w'. split; [exact H1|exact H2].
Defined.

(** ** Formatters *)

Lemma js_length_append a b : js_length (a ++ b) = js_length a + js_length b.
Proof.
  induction a as [|c a IH]; cbn [append js_length]; [reflexivity|].
  rewrite IH. lia.
Qed.

Lemma js_length_nonneg s : 0 <= js_length s.
Proof.
  induction s as [|c s IH]; cbn [js_length]; [lia|].
  assert (0 <= units_of_byte c).
  { unfold units_of_byte. cbv zeta.
    repeat match goal with |- context [if ?b then _ else _] => destruct b end;
      lia. }
  lia.
Qed.

Lemma str_app_nil_r (s : string) : (s ++ "")%string = s.
Proof. induction s; cbn; congruence. Qed.

Lemma str_app_assoc (a b c : string) :
  ((a ++ b) ++ c)%string = (a ++ b ++ c)%string.
Proof. induction a; cbn; congruence. Qed.

Lemma concat_nil_cons (x : string) (l : list string) :
  String.concat "" (x :: l) = (x ++ String.concat "" l)%string.
Proof.
  destruct l as [|y l]; cbn [String.concat].
  - symmetry. apply str_app_nil_r.
  - reflexivity.
Qed.

(** The loop of [truncateResponse], from any state of its accumulators. *)
Lemma truncateLoop_spec {T} (formatFn : T -> string) (items : list T) :
  forall text included text' tr included',
    truncateLoop formatFn items text included = (text', tr, included') ->
    exists taken rest,
      items = taken ++ rest /\
      included' = included ++ taken /\
      text' = (text ++ String.concat "" (map formatFn taken))%string /\
      (js_length text <= CHARACTER_LIMIT -> js_length text' <= CHARACTER_LIMIT) /\
      (tr = false -> rest = []) /\
      (tr = true ->
       exists item rest',
         rest = item :: rest' /\
         js_length text' + js_length (formatFn item) > CHARACTER_LIMIT).
Proof.
  induction items as [|item items IH]; intros text included text' tr included' H.
  - cbn in H. injection H as <- <- <-.
    exists [], []. cbn. rewrite app_nil_r, str_app_nil_r.
    repeat split; auto; discriminate.
  - cbn [truncateLoop] in H.
    destruct (js_length text + js_length (formatFn item) >? CHARACTER_LIMIT)
      eqn:C.
    + injection H as <- <- <-.
      exists [], (item :: items). cbn. rewrite app_nil_r, str_app_nil_r.
      split; [reflexivity|]. split; [reflexivity|]. split; [reflexivity|].
      split; [auto|]. split; [discriminate|].
      intros _. exists item, items. split; [reflexivity|].
      apply Z.gtb_lt in C. lia.
    + destruct (IH _ _ _ _ _ H) as (taken & rest & E1 & E2 & E3 & B & F & G).
      exists (item :: taken), rest.
      split; [cbn; congruence|].
      split; [rewrite E2, <- app_assoc; reflexivity|].
      split.
      { rewrite E3. cbn [map]. rewrite concat_nil_cons, str_app_assoc.
        reflexivity. }
      split.
      { intros _. apply B. rewrite js_length_append.
        rewrite Z.gtb_ltb in C. apply Z.ltb_ge in C. exact C. }
      split; assumption.
Qed.

Lemma concat_nil_app (l1 l2 : list string) :
  String.concat "" (l1 ++ l2) =
  (String.concat "" l1 ++ String.concat "" l2)%string.
Proof.
  induction l1 as [|x l1 IH]; [reflexivity|].
  change ((x :: l1) ++ l2) with (x :: (l1 ++ l2)).
  rewrite !concat_nil_cons, IH, str_app_assoc. reflexivity.
Qed.

(** What [truncateResponse] returns, read off its loop. *)
Lemma truncateResponse_facts {T} (items : list T) (total offset : Z)
    (formatFn : T -> string) :
  let r := truncateResponse items total offset formatFn in
  let body := String.concat "" (map formatFn (trunc_items r)) in
  exists rest,
    items = trunc_items r ++ rest /\
    js_length body <= CHARACTER_LIMIT /\
    (truncated r = false -> rest = [] /\ trunc_text r = body) /\
    (truncated r = true ->
     trunc_text r =
       (body ++ truncation_notice (length (trunc_items r)) (length items))%string /\
     exists item rest',
       rest = item :: rest' /\
       js_length body + js_length (formatFn item) > CHARACTER_LIMIT).
Proof.
  cbv zeta. unfold truncateResponse.
  destruct (truncateLoop formatFn items "" []) as [[text tr] inc] eqn:L.
  destruct (truncateLoop_spec formatFn items _ _ _ _ _ L)
    as (taken & rest & E1 & E2 & E3 & B & F & G).
  cbn in E2, E3. subst inc text. cbn [trunc_items trunc_text truncated].
  exists rest. split; [exact E1|].
  split; [apply B; cbn; unfold CHARACTER_LIMIT; lia|].
  split.
  - intros ->. split; [apply F; reflexivity|reflexivity].
  - intros ->. split; [reflexivity|]. apply G. reflexivity.
Qed.

(** X21. [truncateResponse] keeps a prefix of the items, in order: the text
    is the texts of the kept items one after the other, at most 25000 UTF-16
    code units long before the notice.  It stops at the first item that does
    not fit, even when a later, shorter one would; the notice is appended
    exactly when an item was left out and names both counts. *)
Theorem truncateResponse_keeps_a_prefix {T} (items : list T) (total offset : Z)
    (formatFn : T -> string) :
  let r := truncateResponse items total offset formatFn in
  let body := String.concat "" (map formatFn (trunc_items r)) in
  exists rest,
    items = trunc_items r ++ rest /\
    js_length body <= 25000 /\
    (truncated r = false -> rest = [] /\ trunc_text r = body) /\
    (truncated r = true ->
     trunc_text r =
       (body ++ truncation_notice (length (trunc_items r)) (length items))%string /\
     exists item rest',
       rest = item :: rest' /\
       js_length body + js_length (formatFn item) > 25000).
Proof. exact (truncateResponse_facts items total offset formatFn). Qed.

(** X22. The response is truncated exactly when the texts of all the items
    together are longer than 25000 UTF-16 code units. *)
Theorem truncateResponse_truncates_iff {T} (items : list T) (total offset : Z)
    (formatFn : T -> string) :
  truncated (truncateResponse items total offset formatFn) = true <->
  js_length (String.concat "" (map formatFn items)) > 25000.
Proof.
  destruct (truncateResponse_facts items total offset formatFn)
    as (rest & E & B & F & G). cbv zeta in *.
  unfold CHARACTER_LIMIT in *.
  destruct (truncated (truncateResponse items total offset formatFn)).
  - split; [intros _|reflexivity].
    destruct G as (_ & item & rest' & -> & C); [reflexivity|].
    rewrite E, map_app, concat_nil_app, js_length_append. cbn [map].
    rewrite concat_nil_cons, js_length_append.
    pose proof (js_length_nonneg (String.concat "" (map formatFn rest'))). lia.
  - split; [discriminate|]. intros C. exfalso.
    destruct F as (-> & _); [reflexivity|].
    rewrite app_nil_r in E. rewrite <- E in B. lia.
Qed.

(** X23. In JSON format [formatListResponse] reports every item and its text
    is the serialised response, however long.  In Markdown format it reports
    a prefix of the items with its own count, and when items were left out of
    a page that lies within the total, [has_more] is true and [next_offset]
    is the offset of the first item left out: paging on from it skips
    nothing. *)
Theorem formatListResponse_pagination {T}
    (stringify : ApiListResponse T -> string) (title : string)
    (items : list T) (total offset : Z) (itemToMarkdown : T -> string) :
  let js := formatListResponse stringify title items total offset JSON
              itemToMarkdown in
  let md := formatListResponse stringify title items total offset MARKDOWN
              itemToMarkdown in
  list_items (structured js) = items /\
  formatted_text js = stringify (buildListResponse items total offset) /\
  exists rest,
    items = list_items (structured md) ++ rest /\
    list_count (structured md) =
      Z.of_nat (length (list_items (structured md))) /\
    (rest <> [] ->
     offset + Z.of_nat (length items) <= total ->
     has_more (structured md) = true /\
     next_offset (structured md) = Some (offset + list_count (structured md))).
Proof.
  cbv zeta. split; [reflexivity|]. split; [reflexivity|].
  destruct (truncateResponse_facts items total offset itemToMarkdown)
    as (rest & E & _). cbv zeta in E.
  exists rest. unfold formatListResponse. cbv zeta.
  cbn [structured list_items list_count has_more next_offset buildListResponse].
  split; [exact E|]. split; [reflexivity|].
  intros Hrest Htotal.
  assert (Hlt : (total >? offset +
                   Z.of_nat (length (trunc_items
                      (truncateResponse items total offset itemToMarkdown))))
                = true).
  { apply Z.gtb_lt.
    assert (L : (length items =
                 length (trunc_items
                           (truncateResponse items total offset itemToMarkdown))
                 + length rest)%nat)
      by (rewrite E at 1; apply length_app).
    destruct rest as [|x rest]; [congruence|]. cbn [length] in L. lia. }
  rewrite Hlt. split; reflexivity.
Qed.

(** X24. An item whose own text is longer than the limit stops the Markdown
    page at once: when it comes first, no item is reported, and if the total
    lies beyond the offset the response says there is more and gives the
    current offset as the next one. *)
Theorem formatListResponse_first_item_too_long {T}
    (stringify : ApiListResponse T -> string) (title : string)
    (item : T) (rest : list T) (total offset : Z) (itemToMarkdown : T -> string) :
  js_length (itemToMarkdown item) > 25000 ->
  let md := formatListResponse stringify title (item :: rest) total offset
              MARKDOWN itemToMarkdown in
  list_items (structured md) = [] /\
  list_count (structured md) = 0 /\
  (offset < total ->
   has_more (structured md) = true /\
   next_offset (structured md) = Some offset).
Proof.
  intros H. cbv zeta.
  unfold formatListResponse, truncateResponse. cbv zeta.
  cbn [truncateLoop js_length].
  assert (C : (0 + js_length (itemToMarkdown item) >? CHARACTER_LIMIT) = true)
    by (apply Z.gtb_lt; unfold CHARACTER_LIMIT; lia).
  rewrite C.
  cbn [trunc_items structured list_items list_count has_more next_offset
       buildListResponse length Z.of_nat].
  split; [reflexivity|]. split; [reflexivity|].
  intros Ht. rewrite Z.add_0_r.
  assert (G : (total >? offset) = true) by (apply Z.gtb_lt; lia).
  rewrite G. split; reflexivity.
Qed.

Lemma formatListResponse_first_item_too_long_witness :
  let long := String.concat "" (repeat "0123456789" 2501) in
  let md := formatListResponse (fun _ => "") "Contatos" [long; "short"] 2 0
              MARKDOWN (fun s => s) in
  list_items (structured md) = [] /\
  has_more (structured md) = true /\
  next_offset (structured md) = Some 0.
Proof.
  intros long md.
  assert (H : js_length ((fun s : string => s) long) > 25000) by by_computation.
  destruct (formatListResponse_first_item_too_long (fun _ => "") "Contatos"
              long ["short"] 2 0 (fun s => s) H) as (H1 & _ & H3).
  split; [exact H1|]. apply H3. lia.
Defined.

(** The page of that example as [truncateResponse] leaves it: no item is
    kept and the text is the notice alone, with both counts. *)
Lemma truncateResponse_notice_example :
  let long := String.concat "" (repeat "0123456789" 2501) in
  trunc_text (truncateResponse [long; "short"] 2 0 (fun s => s)) =
  (nl ++ nl ++ "---" ++ nl ++
   "**Resposta truncada.** Exibindo 0 de 2 itens retornados. Use o parâmetro 'offset' para ver mais resultados.")%string.
Proof. by_computation. Qed.

(** ** Two refreshes in a row *)

(** X25. The refresh token rotates: after a successful refresh the stored
    pair is the issued one, and the next refresh posts the refresh token of
    that pair, not the one used before. *)
Theorem refresh_uses_the_latest_refresh_token env (c : OAuthConfig)
    (t nt : OAuthTokens) (w w1 w2 wa wb : World) :
  fs w = Dir (Some (JsonTokens t)) ->
  isRefreshTokenExpired env t w = (Ok false, w1) ->
  isAccessTokenExpired env t w1 = (Ok true, w2) ->
  tokenEndpoint env (length (tokenCalls w)) (refreshForm (refresh_token t) c)
    = inr nt ->
  let w' := snd (getValidAccessToken env c w) in
  let stored := withExpiry (clock env (ticks w2)) nt in
  isRefreshTokenExpired env stored w' = (Ok false, wa) ->
  isAccessTokenExpired env stored wa = (Ok true, wb) ->
  fs w' = Dir (Some (JsonTokens stored)) /\
  tokenCalls (snd (getValidAccessToken env c w')) =
    tokenCalls w ++ [refreshForm (refresh_token t) c;
                     refreshForm (refresh_token nt) c].
Proof.
  intros Hfs Hr Ha Hnt w' stored Hr' Ha'.
  pose proof (getValidAccessToken_refresh_run env c t w w1 w2 Hfs Hr Ha) as R1.
  cbv zeta in R1. rewrite Hnt in R1.
  assert (F : fs w' = Dir (Some (JsonTokens stored)))
    by (subst w'; rewrite R1; reflexivity).
  assert (Tk : tokenCalls w' = tokenCalls w ++ [refreshForm (refresh_token t) c])
    by (subst w'; rewrite R1; reflexivity).
  split; [exact F|].
  pose proof (getValidAccessToken_refresh_run env c stored w' wa wb F Hr' Ha')
    as R2.
  cbv zeta in R2. rewrite R2.
  set (o := tokenEndpoint env (length (tokenCalls w')) _). clearbody o.
  destruct o; cbn [snd tokenCalls set_fs set_ticks set_tokenCalls];
    rewrite Tk, <- app_assoc; reflexivity.
Qed.

Lemma refresh_uses_the_latest_refresh_token_witness :
  let w' := snd (getValidAccessToken moving_clock Scenario.config Scenario.world) in
  tokenCalls (snd (getValidAccessToken moving_clock Scenario.config w')) =
  [[("grant_type", "refresh_token"); ("client_id", "client-id");
    ("client_secret", "client-secret"); ("refresh_token", "R1")];
   [("grant_type", "refresh_token"); ("client_id", "client-id");
    ("client_secret", "client-secret"); ("refresh_token", "R2")]].
Proof.
  intros w'.
  assert (Hfs : fs Scenario.world = Dir (Some (JsonTokens Scenario.A1R1)))
    by reflexivity.
  assert (Hr : isRefreshTokenExpired moving_clock Scenario.A1R1 Scenario.world =
               (Ok false, set_ticks 1 Scenario.world)) by by_computation.
  assert (Ha : isAccessTokenExpired moving_clock Scenario.A1R1
                 (set_ticks 1 Scenario.world) =
               (Ok true, set_ticks 2 Scenario.world)) by by_computation.
  assert (Hnt : tokenEndpoint moving_clock (length (tokenCalls Scenario.world))
                  (refreshForm (refresh_token Scenario.A1R1) Scenario.config) =
                inr Scenario.A2R2) by reflexivity.
  assert (Hr' : isRefreshTokenExpired moving_clock
                  (withExpiry (clock moving_clock
                                 (ticks (set_ticks 2 Scenario.world)))
                     Scenario.A2R2) w' =
                (Ok false, set_ticks 4 w')) by by_computation.
  assert (Ha' : isAccessTokenExpired moving_clock
                  (withExpiry (clock moving_clock
                                 (ticks (set_ticks 2 Scenario.world)))
                     Scenario.A2R2) (set_ticks 4 w') =
                (Ok true, set_ticks 5 w')) by by_computation.
  destruct (refresh_uses_the_latest_refresh_token moving_clock Scenario.config
              Scenario.A1R1 Scenario.A2R2 Scenario.world _ _ _ _
              Hfs Hr Ha Hnt Hr' Ha') as [_ H].
  fold w' in H. rewrite H. by_computation.
Defined.
